(** * HttpClient, DataService and ServiceRegistry: a shallow embedding

    The development covers the HTTP client with [BaseService.handleError]
    ([src/unnamed/part_007]), the generic [DataService]
    ([src/src/services/data/DataService.ts]) and the [ServiceRegistry]
    singleton ([src/unnamed/part_008]).

    The client issues one logical HTTP request per call of [request]
    (reached through [get], [post], [put], [patch] and [delete]), retries
    network and 5xx failures a fixed number of times with a constant delay,
    wraps every failure into an [HttpError], and decodes the body of a 2xx
    response by its content type.

    Modelling choices:
    - JS numbers used as statuses, timeouts and retry counts are [Z];
    - JS objects used as string maps (headers) are association lists, with
      object spread written out key by key;
    - an optional option property is [prop]: absent, present but
      [undefined], or a value, so that object spread is exact;
    - the asynchronous effects (fetch, timers, the [isLoading] observable)
      run in a small state-and-exception monad over a [World] that records
      every effect in a trace;
    - the platform builtins [JSON.parse] and [JSON.stringify] are section
      variables, and so is the network: [fetch] answers the n-th call of
      the world by [transport n url init];
    - a data service runs in a second state monad over its item list, its
      own [isLoading] flag and the client's world;
    - [URLSearchParams] is written out: its serializer and its parser;
    - the registry's module-level instance and the identity of the objects
      it creates are an explicit global state with an allocation counter. *)

From Stdlib Require Import String Ascii List ZArith Bool Lia.
Import ListNotations.
Open Scope string_scope.
Open Scope Z_scope.
Open Scope list_scope.
Set Warnings "-register-all".

(* ------------------------------------------------------------------ *)
(** ** String helpers ([String.prototype] methods) *)

(** [s.startsWith(p)] *)
Definition startsWith (s p : string) : bool := String.prefix p s.

(** [s.includes(sub)] *)
Fixpoint includes (s sub : string) : bool :=
  if String.prefix sub s then true
  else match s with
       | EmptyString => false
       | String _ rest => includes rest sub
       end.

(** The last character of [s], if any. *)
Fixpoint last_char (s : string) : option ascii :=
  match s with
  | EmptyString => None
  | String c EmptyString => Some c
  | String _ rest => last_char rest
  end.

(** [s.endsWith('/')] *)
Definition endsWithSlash (s : string) : bool :=
  match last_char s with
  | Some c => Ascii.eqb c "/"%char
  | None => false
  end.

(** [s.slice(0, -1)] *)
Fixpoint dropLast (s : string) : string :=
  match s with
  | EmptyString => EmptyString
  | String _ EmptyString => EmptyString
  | String c rest => String c (dropLast rest)
  end.

(* ------------------------------------------------------------------ *)
(** ** [HttpClient.buildUrl] *)

(** [private buildUrl(path)]: [baseUrl] is [this.baseUrl]. *)
Definition buildUrl (baseUrl path : string) : string :=
  if startsWith path "http://" || startsWith path "https://" then path
  else
    let baseUrl' := if endsWithSlash baseUrl then dropLast baseUrl else baseUrl in
    let normalizedPath := if startsWith path "/" then path else ("/" ++ path)%string in
    (baseUrl' ++ normalizedPath)%string.

(** [`${n}`] for an integral JS number. *)
Fixpoint digits_aux (fuel : nat) (n : Z) (acc : string) : string :=
  match fuel with
  | O => acc
  | S f =>
      let acc' := String (ascii_of_nat (48 + Z.to_nat (n mod 10))) acc in
      if n <? 10 then acc' else digits_aux f (n / 10) acc'
  end.

Definition string_of_Z (z : Z) : string :=
  if z <? 0 then ("-" ++ digits_aux 64 (- z) "")%string else digits_aux 64 z "".

(* ------------------------------------------------------------------ *)
(** ** Data model *)

(** An optional property of a JS object: missing, present with the value
    [undefined], or present with a value. *)
Inductive prop (A : Type) : Type :=
| Absent : prop A
| Undef : prop A
| Val : A -> prop A.
Arguments Absent {A}.
Arguments Undef {A}.
Arguments Val {A} _.

(** The property of [{ ...a, ...b }]: an own property of [b] wins, also
    when its value is [undefined]. *)
Definition spread_prop {A} (a b : prop A) : prop A :=
  match b with Absent => a | _ => b end.

(** [const { p = d } = o]: the default applies when [p] is missing or
    [undefined]. *)
Definition default_prop {A} (p : prop A) (d : A) : A :=
  match p with Val x => x | _ => d end.

(** A [Record<string, string>]: keys in insertion order, each at most once. *)
Definition obj := list (string * string).

(** [o[k] = v] *)
Fixpoint obj_set (o : obj) (k v : string) : obj :=
  match o with
  | [] => [(k, v)]
  | (k', v') :: o' =>
      if String.eqb k k' then (k, v) :: o' else (k', v') :: obj_set o' k v
  end.

(** [o[k]] *)
Fixpoint obj_get (o : obj) (k : string) : option string :=
  match o with
  | [] => None
  | (k', v') :: o' => if String.eqb k k' then Some v' else obj_get o' k
  end.

(** [{ ...a, ...b }]: the keys of [b] override those of [a] one by one. *)
Definition obj_spread (a b : obj) : obj :=
  fold_left (fun acc kv => obj_set acc (fst kv) (snd kv)) b a.

(** [...p] for a property that may be missing or [undefined]: spreads
    nothing then. *)
Definition obj_of_prop (p : prop obj) : obj :=
  match p with Val o => o | _ => [] end.

(** [interface HttpRequestOptions] *)
Record HttpRequestOptions : Type := {
  headers : prop obj;
  timeout : prop Z;
  retries : prop Z;
  retryDelay : prop Z
}.

(** An options argument that is not given ([options?] is [undefined]). *)
Definition no_options : HttpRequestOptions :=
  {| headers := Absent; timeout := Absent; retries := Absent; retryDelay := Absent |}.

(** [{ ...a, ...b }] on options. *)
Definition spread_options (a b : HttpRequestOptions) : HttpRequestOptions :=
  {| headers := spread_prop (headers a) (headers b);
     timeout := spread_prop (timeout a) (timeout b);
     retries := spread_prop (retries a) (retries b);
     retryDelay := spread_prop (retryDelay a) (retryDelay b) |}.

(** JS values that a caller passes as [data] (NaN and functions are not
    modelled). *)
Inductive jsval : Type :=
| JUndefined
| JNull
| JBool (b : bool)
| JNum (n : Z)
| JStr (s : string)
| JArr (l : list jsval)
| JObj (fields : list (string * jsval)).

(** JS truthiness, as used by [data ? ... : ...]. *)
Definition truthy (v : jsval) : bool :=
  match v with
  | JUndefined | JNull => false
  | JBool b => b
  | JNum n => negb (n =? 0)
  | JStr s => negb (String.eqb s "")
  | JArr _ | JObj _ => true
  end.

(** The [Response] of [fetch]: header names are lower-case, as [Headers]
    normalises them. *)
Record Response : Type := {
  r_status : Z;
  r_headers : obj;
  r_body : string
}.

(** [response.ok] *)
Definition response_ok (r : Response) : bool :=
  (200 <=? r_status r) && (r_status r <=? 299).

(** [class HttpError extends Error] *)
Record HttpError : Type := {
  err_message : string;
  err_status : Z;
  err_response : option Response
}.

(** Values that can be thrown: an [HttpError], a [DOMException] (an
    [Error] with a [name]), another [Error], or a value that is no
    [Error]. *)
Inductive js_error : Type :=
| EHttp (e : HttpError)
| EDOMException (name message : string)
| EError (message : string)
| ENonError.

(** The decoded body: [response.json()], [response.text()] or
    [response.blob()]. *)
Inductive body_data : Type :=
| DJson (v : jsval)
| DText (s : string)
| DBlob (bytes : string).

(** [interface HttpResponse<T>] *)
Record HttpResponse : Type := {
  data : body_data;
  res_status : Z;
  res_headers : obj;
  ok : bool
}.

(** The [RequestInit] passed to [fetch] (the abort signal is the timer of
    the trace). *)
Record FetchInit : Type := {
  method : string;
  fi_headers : obj;
  body : option string
}.

(** What the network answers to one [fetch]. *)
Inductive fetch_result : Type :=
| FetchResponse (r : Response)
| FetchReject (e : js_error).

Inductive body_kind : Type := ReadJson | ReadText | ReadBlob.

(** Observable effects, in order. *)
Inductive event : Type :=
| EvLoading (b : bool)
| EvSetTimeout (ms : Z)
| EvClearTimeout
| EvFetch (url : string) (init : FetchInit) (loading : bool)
| EvReadBody (k : body_kind)
| EvSleep (ms : Z).

Record World : Type := {
  isLoading : bool;
  fetchCount : nat;
  trace : list event
}.

(* ------------------------------------------------------------------ *)
(** ** A state-and-exception monad for [async] code *)

Inductive outcome (A : Type) : Type :=
| Ok (a : A)
| Throw (e : js_error).
Arguments Ok {A} _.
Arguments Throw {A} _.

Definition M (A : Type) : Type := World -> outcome A * World.

Definition ret {A} (a : A) : M A := fun w => (Ok a, w).
Definition throw {A} (e : js_error) : M A := fun w => (Throw e, w).
Definition bind {A B} (m : M A) (f : A -> M B) : M B :=
  fun w => match m w with
           | (Ok a, w') => f a w'
           | (Throw e, w') => (Throw e, w')
           end.

Notation "x <- m ;; k" := (bind m (fun x => k))
  (at level 61, m at next level, right associativity).
Notation "m ;;; k" := (bind m (fun _ => k))
  (at level 61, right associativity).

(** [try { m } catch (e) { h(e) }] *)
Definition catchM {A} (m : M A) (h : js_error -> M A) : M A :=
  fun w => match m w with
           | (Ok a, w') => (Ok a, w')
           | (Throw e, w') => h e w'
           end.

(** [try { m } finally { f }] *)
Definition finallyM {A} (m : M A) (f : M unit) : M A :=
  fun w => match m w with
           | (o, w') =>
               match f w' with
               | (Ok _, w'') => (o, w'')
               | (Throw e, w'') => (Throw e, w'')
               end
           end.

Definition emit (ev : event) : M unit :=
  fun w => (Ok tt, {| isLoading := isLoading w; fetchCount := fetchCount w;
                      trace := trace w ++ [ev] |}).

(** [this.isLoading(b)] *)
Definition setLoading (b : bool) : M unit :=
  fun w => (Ok tt, {| isLoading := b; fetchCount := fetchCount w;
                      trace := trace w ++ [EvLoading b] |}).

(** [await new Promise(resolve => setTimeout(resolve, ms))] *)
Definition sleep (ms : Z) : M unit := emit (EvSleep ms).

(* ------------------------------------------------------------------ *)
(** ** [class HttpClient] *)

Record HttpClient : Type := {
  baseUrl : string;
  defaultOptions : HttpRequestOptions
}.

Definition builtin_headers : obj :=
  [("Content-Type", "application/json"); ("Accept", "application/json")].

Definition builtin_options : HttpRequestOptions :=
  {| headers := Val builtin_headers; timeout := Val 30000;
     retries := Val 1; retryDelay := Val 1000 |}.

(** [constructor(baseUrl = '', defaultOptions = {})]: the given options are
    spread over the built-in ones. *)
Definition new_HttpClient (baseUrl : string) (defaultOptions : HttpRequestOptions)
  : HttpClient :=
  {| baseUrl := baseUrl; defaultOptions := spread_options builtin_options defaultOptions |}.

(** [private shouldRetry(error)] *)
Definition shouldRetry (error : js_error) : bool :=
  match error with
  | EHttp e => (err_status e =? 0) || ((500 <=? err_status e) && (err_status e <? 600))
  | _ => false
  end.

(** The [HttpError] of a response that is not [ok]. *)
Definition status_error (response : Response) : HttpError :=
  {| err_message := ("Request failed with status " ++ string_of_Z (r_status response))%string;
     err_status := r_status response;
     err_response := Some response |}.

(** The [catch] block of [executeRequest]: every error becomes an
    [HttpError]. *)
Definition wrap_error (error : js_error) : js_error :=
  match error with
  | EHttp _ => error
  | EDOMException name msg =>
      if String.eqb name "AbortError"
      then EHttp {| err_message := "Request timeout"; err_status := 0; err_response := None |}
      else EHttp {| err_message := msg; err_status := 0; err_response := None |}
  | EError msg => EHttp {| err_message := msg; err_status := 0; err_response := None |}
  | ENonError => EHttp {| err_message := "Unknown error"; err_status := 0; err_response := None |}
  end.

(** [contentType?.includes(sub)] for [headers.get('content-type')]. *)
Definition includes_opt (contentType : option string) (sub : string) : bool :=
  match contentType with Some s => includes s sub | None => false end.

(** [timeout || 30000] *)
Definition timeout_ms (t : prop Z) : Z :=
  match t with Val ms => if ms =? 0 then 30000 else ms | _ => 30000 end.

(* ------------------------------------------------------------------ *)
(** ** Concrete runtimes for the examples

    A stand-in for the platform's [JSON.parse] that knows the literals
    [null], [true] and [false], and a stand-in for [JSON.stringify]
    (strings are quoted without escaping); fixed networks; a client with
    the built-in defaults; a fresh world. *)

Definition demo_json_parse (s : string) : jsval + string :=
  if String.eqb s "null" then inl JNull
  else if String.eqb s "true" then inl (JBool true)
  else if String.eqb s "false" then inl (JBool false)
  else inr "Unexpected token in JSON at position 0".

Definition demo_quote (s : string) : string :=
  String "034"%char (s ++ String "034"%char EmptyString)%string.

Fixpoint demo_json_stringify (v : jsval) : string :=
  match v with
  | JUndefined | JNull => "null"
  | JBool true => "true"
  | JBool false => "false"
  | JNum n => string_of_Z n
  | JStr s => demo_quote s
  | JArr l => ("[" ++ String.concat "," (map demo_json_stringify l) ++ "]")%string
  | JObj fs =>
      ("{" ++ String.concat ","
               (map (fun kv => demo_quote (fst kv) ++ ":" ++ demo_json_stringify (snd kv))%string fs)
       ++ "}")%string
  end.

(** The JSON text of one item with id ["7"], and a [JSON.parse] for the
    examples that also knows it. *)
Definition item_body : string :=
  ("{" ++ demo_quote "id" ++ ":" ++ demo_quote "7" ++ "}")%string.

Definition demo_json_parse_item (s : string) : jsval + string :=
  if String.eqb s item_body then inl (JObj [("id", JStr "7")]) else demo_json_parse s.

(** A network that answers every [fetch] with [r]. *)
Definition always (r : Response) : nat -> string -> FetchInit -> fetch_result :=
  fun _ _ _ => FetchResponse r.

(** A network that rejects every [fetch] with [e]. *)
Definition always_reject (e : js_error) : nat -> string -> FetchInit -> fetch_result :=
  fun _ _ _ => FetchReject e.

Definition mk_response (status : Z) (hs : obj) (b : string) : Response :=
  {| r_status := status; r_headers := hs; r_body := b |}.

Definition demo_client : HttpClient := new_HttpClient "https://api.example.com" no_options.

Definition fresh_world : World := {| isLoading := false; fetchCount := 0; trace := [] |}.

(** Call options that only set the retry budget and the delay. *)
Definition retry_options (n delay : Z) : HttpRequestOptions :=
  {| headers := Absent; timeout := Absent; retries := Val n; retryDelay := Val delay |}.

(** A network that answers the first [k] fetches with [bad] and the
    others with [good]. *)
Definition flaky (k : nat) (bad good : Response) : nat -> string -> FetchInit -> fetch_result :=
  fun i _ _ => if Nat.ltb i k then FetchResponse bad else FetchResponse good.

Definition json_response (status : Z) (b : string) : Response :=
  mk_response status [("content-type", "application/json")] b.

(* ------------------------------------------------------------------ *)
(** ** [URLSearchParams] serialization

    [new URLSearchParams()], [append] and [toString()] as [DataService.getAll]
    uses them: the [application/x-www-form-urlencoded] serializer. A string
    stands for its UTF-8 bytes, one [ascii] per byte. The parser is the
    matching one of the same standard, the one a server applies to the
    query. *)

(** The bytes the serializer leaves as they are: [*-._], digits, letters. *)
Definition is_unreserved (c : ascii) : bool :=
  let n := nat_of_ascii c in
  Nat.eqb n 42 || Nat.eqb n 45 || Nat.eqb n 46 || Nat.eqb n 95 ||
  (Nat.leb 48 n && Nat.leb n 57) || (Nat.leb 65 n && Nat.leb n 90) ||
  (Nat.leb 97 n && Nat.leb n 122).

(** An upper-case hexadecimal digit. *)
Definition hex_digit (n : nat) : ascii :=
  if Nat.ltb n 10 then ascii_of_nat (48 + n) else ascii_of_nat (55 + n).

(** The serialization of one byte: [+] for a space, the byte itself when
    unreserved, [%XX] otherwise. *)
Definition urlencode_byte (c : ascii) : string :=
  if Ascii.eqb c " " then "+"
  else if is_unreserved c then String c EmptyString
  else String "%" (String (hex_digit (Nat.div (nat_of_ascii c) 16))
                     (String (hex_digit (Nat.modulo (nat_of_ascii c) 16)) EmptyString)).

Fixpoint form_urlencode (s : string) : string :=
  match s with
  | EmptyString => EmptyString
  | String c s' => (urlencode_byte c ++ form_urlencode s')%string
  end.

(** [queryParams.toString()] after appending the pairs of [l] in order. *)
Definition form_serialize (l : list (string * string)) : string :=
  String.concat "&" (map (fun kv => form_urlencode (fst kv) ++ "=" ++ form_urlencode (snd kv))%string l).

(** The value of a hexadecimal digit of either case. *)
Definition hex_value (c : ascii) : option nat :=
  let n := nat_of_ascii c in
  if Nat.leb 48 n && Nat.leb n 57 then Some (n - 48)%nat
  else if Nat.leb 65 n && Nat.leb n 70 then Some (n - 55)%nat
  else if Nat.leb 97 n && Nat.leb n 102 then Some (n - 87)%nat
  else None.

(** Percent-decoding: [%XX] with two hexadecimal digits is that byte; any
    other [%] stays. *)
Fixpoint percent_decode (s : string) : string :=
  match s with
  | EmptyString => EmptyString
  | String c s' =>
      if Ascii.eqb c "%" then
        match s' with
        | String h1 (String h2 s'') =>
            match hex_value h1, hex_value h2 with
            | Some a, Some b => String (ascii_of_nat (a * 16 + b)) (percent_decode s'')
            | _, _ => String c (percent_decode s')
            end
        | _ => String c (percent_decode s')
        end
      else String c (percent_decode s')
  end.

Fixpoint plus_to_space (s : string) : string :=
  match s with
  | EmptyString => EmptyString
  | String c s' => String (if Ascii.eqb c "+" then " "%char else c) (plus_to_space s')
  end.

(** A name or a value of the parser: [+] is a space, then percent-decoding. *)
Definition form_decode (s : string) : string := percent_decode (plus_to_space s).

(** [s] split on every [sep]. *)
Fixpoint split_on (sep : ascii) (s : string) : list string :=
  match s with
  | EmptyString => [EmptyString]
  | String c s' =>
      let rest := split_on sep s' in
      if Ascii.eqb c sep then EmptyString :: rest
      else match rest with
           | [] => [String c EmptyString]
           | h :: t => String c h :: t
           end
  end.

(** [s] split at its first [sep], if any. *)
Fixpoint break_at (sep : ascii) (s : string) : string * option string :=
  match s with
  | EmptyString => (EmptyString, None)
  | String c s' =>
      if Ascii.eqb c sep then (EmptyString, Some s')
      else let (a, b) := break_at sep s' in (String c a, b)
  end.

(** The [application/x-www-form-urlencoded] parser: split on [&], skip
    empty pieces, split each at its first [=] (no [=]: empty value),
    decode both sides. *)
Definition form_parse (s : string) : list (string * string) :=
  map (fun piece => let (n, v) := break_at "=" piece in
                    (form_decode n, match v with Some v => form_decode v | None => EmptyString end))
      (filter (fun piece => negb (String.eqb piece EmptyString)) (split_on "&" s)).

(** Whether [c] occurs in [s]. *)
Fixpoint has_char (c : ascii) (s : string) : bool :=
  match s with
  | EmptyString => false
  | String c' s' => Ascii.eqb c c' || has_char c s'
  end.

Section Client.

(** [JSON.parse] as used by [response.json()]: a value, or the message of
    the [SyntaxError] it throws. *)
Variable json_parse : string -> jsval + string.
(** [JSON.stringify] *)
Variable json_stringify : jsval -> string.
(** The network: the answer to the n-th [fetch] of the world. A fired abort
    signal shows as a rejection with [DOMException] [AbortError]. *)
Variable transport : nat -> string -> FetchInit -> fetch_result.

(** [fetch(url, init)] *)
Definition fetch (url : string) (init : FetchInit) : M Response :=
  fun w =>
    let w' := {| isLoading := isLoading w; fetchCount := S (fetchCount w);
                 trace := trace w ++ [EvFetch url init (isLoading w)] |} in
    match transport (fetchCount w) url init with
    | FetchResponse r => (Ok r, w')
    | FetchReject e => (Throw e, w')
    end.

(** [response.json()], [response.text()], [response.blob()] *)
Definition response_json (r : Response) : M jsval :=
  emit (EvReadBody ReadJson);;;
  match json_parse (r_body r) with
  | inl v => ret v
  | inr msg => throw (EError msg)
  end.

Definition response_text (r : Response) : M string :=
  emit (EvReadBody ReadText);;; ret (r_body r).

Definition response_blob (r : Response) : M string :=
  emit (EvReadBody ReadBlob);;; ret (r_body r).

(** The [RequestInit] that [executeRequest] passes to [fetch]. *)
Definition request_init (client : HttpClient) (method : string) (data : jsval)
  (options : HttpRequestOptions) : FetchInit :=
  {| method := method;
     fi_headers := obj_spread (obj_of_prop (headers (defaultOptions client)))
                              (obj_of_prop (headers options));
     body := if truthy data then Some (json_stringify data) else None |}.

(** The body decoding of a successful response. *)
Definition decode_body (response : Response) : M body_data :=
  let contentType := obj_get (r_headers response) "content-type" in
  if includes_opt contentType "application/json" then
    v <- response_json response;; ret (DJson v)
  else if includes_opt contentType "text/" then
    s <- response_text response;; ret (DText s)
  else
    b <- response_blob response;; ret (DBlob b).

(** [private executeRequest(method, url, data, options)] *)
Definition executeRequest (client : HttpClient) (method url : string) (data : jsval)
  (options : HttpRequestOptions) : M HttpResponse :=
  let fullUrl := buildUrl (baseUrl client) url in
  emit (EvSetTimeout (timeout_ms (timeout options)));;;
  finallyM
    (catchM
       (response <- fetch fullUrl (request_init client method data options);;
        let responseHeaders := r_headers response in
        if negb (response_ok response) then throw (EHttp (status_error response))
        else
          responseData <- decode_body response;;
          ret {| data := responseData; res_status := r_status response;
                 res_headers := responseHeaders; ok := response_ok response |})
       (fun error => throw (wrap_error error)))
    (emit EvClearTimeout).

(** [private executeRequestWithRetries(...)]: a JS integer [retriesLeft]
    is given as [Z.to_nat retriesLeft], so that [retriesLeft <= 0] is
    [retriesLeft = 0%nat]. *)
Fixpoint executeRequestWithRetries (client : HttpClient) (method url : string)
  (data : jsval) (options : HttpRequestOptions) (retriesLeft : nat) (retryDelay : Z)
  : M HttpResponse :=
  catchM (executeRequest client method url data options)
    (fun error =>
       if Nat.eqb retriesLeft 0 || negb (shouldRetry error) then throw error
       else
         match retriesLeft with
         | O => throw error
         | S k =>
             sleep retryDelay;;;
             executeRequestWithRetries client method url data options k retryDelay
         end).

(** The options of a call after [{ ...this.defaultOptions, ...options }]. *)
Definition merged_options (client : HttpClient) (options : HttpRequestOptions)
  : HttpRequestOptions :=
  spread_options (defaultOptions client) options.

(** [private request(method, url, data, options)] *)
Definition request (client : HttpClient) (method url : string) (data : jsval)
  (options : HttpRequestOptions) : M HttpResponse :=
  let mergedOptions := merged_options client options in
  let retries := default_prop (retries mergedOptions) 1 in
  let retryDelay := default_prop (retryDelay mergedOptions) 1000 in
  setLoading true;;;
  finallyM
    (executeRequestWithRetries client method url data mergedOptions
       (Z.to_nat retries) retryDelay)
    (setLoading false).

Definition get (client : HttpClient) (url : string) (options : HttpRequestOptions) :=
  request client "GET" url JUndefined options.
Definition post (client : HttpClient) (url : string) (data : jsval) (options : HttpRequestOptions) :=
  request client "POST" url data options.
Definition put (client : HttpClient) (url : string) (data : jsval) (options : HttpRequestOptions) :=
  request client "PUT" url data options.
Definition patch (client : HttpClient) (url : string) (data : jsval) (options : HttpRequestOptions) :=
  request client "PATCH" url data options.
Definition delete (client : HttpClient) (url : string) (options : HttpRequestOptions) :=
  request client "DELETE" url JUndefined options.


(* ------------------------------------------------------------------ *)
(** ** Reading a trace *)

(** The [fetch] calls of a trace, with their URL and [RequestInit]. *)
Fixpoint fetches (evs : list event) : list (string * FetchInit) :=
  match evs with
  | [] => []
  | EvFetch u i _ :: t => (u, i) :: fetches t
  | _ :: t => fetches t
  end.

(** An effect of a single attempt while the loading flag is [l]: it does not
    write the flag, and a [fetch] sees the flag at [l]. *)
Definition quiet (l : bool) (ev : event) : Prop :=
  match ev with
  | EvLoading _ => False
  | EvFetch _ _ l' => l' = l
  | _ => True
  end.

(** The effects of one attempt that fails without reading the body, and of
    one that fails while reading a JSON body. *)
Definition attempt_events (t : Z) (url : string) (init : FetchInit) (l : bool)
  : list event :=
  [EvSetTimeout t; EvFetch url init l; EvClearTimeout].

Definition json_attempt_events (t : Z) (url : string) (init : FetchInit) (l : bool)
  : list event :=
  [EvSetTimeout t; EvFetch url init l; EvReadBody ReadJson; EvClearTimeout].

(** The world after appending [evs] and counting [n] more fetches. *)
Definition advance (w : World) (n : nat) (evs : list event) : World :=
  {| isLoading := isLoading w; fetchCount := (fetchCount w + n)%nat;
     trace := trace w ++ evs |}.

(** An effect that is a [fetch] goes to [u] with [i]. *)
Definition sends (u : string) (i : FetchInit) (ev : event) : Prop :=
  match ev with EvFetch u' i' _ => u' = u /\ i' = i | _ => True end.

(** The retry delays of a trace. *)
Fixpoint sleeps (evs : list event) : list Z :=
  match evs with
  | [] => []
  | EvSleep d :: t => d :: sleeps t
  | _ :: t => sleeps t
  end.

(** An effect that is not about the abort timer. *)
Definition not_timer (ev : event) : Prop :=
  match ev with EvSetTimeout _ | EvClearTimeout => False | _ => True end.

(** The effects of a trace apart from body reads and retry delays: the
    timer and the [fetch] calls. *)
Definition skeleton (evs : list event) : list event :=
  filter (fun ev => match ev with EvReadBody _ | EvSleep _ => false | _ => true end) evs.

(* ------------------------------------------------------------------ *)
(** ** [BaseService.handleError] and [class DataService]

    A [DataService] keeps its own [items] and [isLoading] observables next
    to the world of its [HttpClient]. Its methods call the client with no
    options ([options] undefined spreads nothing, as [no_options]). The
    [console.error] output of [handleError] and [initialize] is not
    modelled. *)

(** A JS value [response.data] can hold: parsed JSON, or a [Blob]. *)
Inductive jsany : Type :=
| AJson (v : jsval)
| ABlob (b : string).

Definition any_of_data (d : body_data) : jsany :=
  match d with
  | DJson v => AJson v
  | DText s => AJson (JStr s)
  | DBlob b => ABlob b
  end.

(** The value held by the [items] observable: an array, or whatever other
    value [this.items(...)] was given. *)
Inductive items_val : Type :=
| IArr (l : list jsany)
| IOther (v : jsany).

(** [this.items(response.data)] *)
Definition items_of_data (d : body_data) : items_val :=
  match d with
  | DJson (JArr l) => IArr (map AJson l)
  | _ => IOther (any_of_data d)
  end.

(** The [TypeError]s the engine throws on a value of the wrong shape: an
    [Error] with the engine's message. *)
Definition type_error (msg : string) : js_error := EError msg.

(** The elements [...currentItems] spreads into an array literal: those of
    an array, the characters of a string; any other value is not
    iterable. *)
Definition spread_items (cur : items_val) : option (list jsany) :=
  match cur with
  | IArr l => Some l
  | IOther (AJson (JArr l)) => Some (map AJson l)
  | IOther (AJson (JStr s)) =>
      Some (map (fun c => AJson (JStr (String c EmptyString))) (list_ascii_of_string s))
  | IOther _ => None
  end.

(** The elements [currentItems.map] and [currentItems.filter] run over:
    only an array has these methods. *)
Definition array_items (cur : items_val) : option (list jsany) :=
  match cur with
  | IArr l => Some l
  | IOther (AJson (JArr l)) => Some (map AJson l)
  | IOther _ => None
  end.

(** The first field named [k] of an object. *)
Fixpoint field (fs : list (string * jsval)) (k : string) : option jsval :=
  match fs with
  | [] => None
  | (k', v) :: fs' => if String.eqb k k' then Some v else field fs' k
  end.

(** [x.id]: [None] when it throws ([x] is [null] or [undefined]). *)
Definition get_id (x : jsany) : option jsval :=
  match x with
  | AJson JUndefined | AJson JNull => None
  | AJson (JObj fs) => Some (match field fs "id" with Some v => v | None => JUndefined end)
  | _ => Some JUndefined
  end.

(** [v === id] for a string [id]. *)
Definition strict_eq_str (v : jsval) (id : string) : bool :=
  match v with JStr s => String.eqb s id | _ => false end.

(** [currentItems.map(existingItem => existingItem.id === id ? updatedItem : existingItem)] *)
Fixpoint map_update (l : list jsany) (id : string) (updatedItem : jsany) : option (list jsany) :=
  match l with
  | [] => Some []
  | x :: t =>
      match get_id x with
      | None => None
      | Some v =>
          match map_update t id updatedItem with
          | None => None
          | Some t' => Some ((if strict_eq_str v id then updatedItem else x) :: t')
          end
      end
  end.

(** [currentItems.filter(item => item.id !== id)] *)
Fixpoint filter_delete (l : list jsany) (id : string) : option (list jsany) :=
  match l with
  | [] => Some []
  | x :: t =>
      match get_id x with
      | None => None
      | Some v =>
          match filter_delete t id with
          | None => None
          | Some t' => Some (if strict_eq_str v id then t' else x :: t')
          end
      end
  end.

(** The engine's message for the first element whose [id] cannot be
    read ([map] and [filter] visit the elements in order). *)
Fixpoint id_read_error (l : list jsany) : string :=
  match l with
  | [] => "Cannot read properties of undefined (reading 'id')"
  | AJson JNull :: _ => "Cannot read properties of null (reading 'id')"
  | AJson JUndefined :: _ => "Cannot read properties of undefined (reading 'id')"
  | _ :: t => id_read_error t
  end.

(** Whether [x.id === id] holds, for an [x] whose [id] can be read. *)
Definition has_id (x : jsany) (id : string) : bool :=
  match get_id x with Some v => strict_eq_str v id | None => false end.

Record DataService : Type := {
  ds_client : HttpClient;
  apiPath : string
}.

Record DSState : Type := {
  ds_items : items_val;
  ds_loading : bool;
  ds_world : World
}.

(** [new DataService(httpClient, apiPath)]: no items, not loading. *)
Definition new_DSState (w : World) : DSState :=
  {| ds_items := IArr []; ds_loading := false; ds_world := w |}.

(** The methods of a service run over its state and the client's world. *)
Definition DM (A : Type) : Type := DSState -> outcome A * DSState.

Definition dret {A} (a : A) : DM A := fun s => (Ok a, s).
Definition dthrow {A} (e : js_error) : DM A := fun s => (Throw e, s).
Definition dbind {A B} (m : DM A) (f : A -> DM B) : DM B :=
  fun s => match m s with
           | (Ok a, s') => f a s'
           | (Throw e, s') => (Throw e, s')
           end.
Definition dcatch {A} (m : DM A) (h : js_error -> DM A) : DM A :=
  fun s => match m s with
           | (Ok a, s') => (Ok a, s')
           | (Throw e, s') => h e s'
           end.
Definition dfinally {A} (m : DM A) (f : DM unit) : DM A :=
  fun s => match m s with
           | (o, s') =>
               match f s' with
               | (Ok _, s'') => (o, s'')
               | (Throw e, s'') => (Throw e, s'')
               end
           end.

(** A call of the client, run on the client's world. *)
Definition lift {A} (m : M A) : DM A :=
  fun s => let '(o, w') := m (ds_world s) in
           (o, {| ds_items := ds_items s; ds_loading := ds_loading s; ds_world := w' |}).

(** [this.items()] and [this.items(v)] *)
Definition getItems : DM items_val := fun s => (Ok (ds_items s), s).
Definition setItems (v : items_val) : DM unit :=
  fun s => (Ok tt, {| ds_items := v; ds_loading := ds_loading s; ds_world := ds_world s |}).

(** [this.isLoading(b)] of the service *)
Definition setDsLoading (b : bool) : DM unit :=
  fun s => (Ok tt, {| ds_items := ds_items s; ds_loading := b; ds_world := ds_world s |}).

(** [protected handleError(error, defaultMessage)]: an [Error] (an
    [HttpError], a [DOMException], any other [Error]) is rethrown as it is;
    any other value becomes [new Error(defaultMessage)]. *)
Definition handleError {A} (error : js_error) (defaultMessage : string) : DM A :=
  match error with
  | ENonError => dthrow (EError defaultMessage)
  | _ => dthrow error
  end.

(** The URL [getAll(params)] requests; a JS object [params] is given by
    its own properties in enumeration order, [None] is [undefined]. *)
Definition getAll_url (apiPath : string) (params : option (list (string * string))) : string :=
  match params with
  | Some p => if negb (Nat.eqb (List.length p) 0)
              then (apiPath ++ "?" ++ form_serialize p)%string else apiPath
  | None => apiPath
  end.

(** The shape shared by the methods: [isLoading(true)], then [try] the
    body, [catch] into [handleError], [finally] [isLoading(false)]. *)
Definition guarded {A} (body : DM A) (defaultMessage : string) : DM A :=
  dbind (setDsLoading true) (fun _ =>
  dfinally (dcatch body (fun error => handleError error defaultMessage))
           (setDsLoading false)).

Definition getAll (svc : DataService) (params : option (list (string * string)))
  : DM body_data :=
  guarded
    (dbind (lift (get (ds_client svc) (getAll_url (apiPath svc) params) no_options))
       (fun response => dret (data response)))
    ("Failed to get items from " ++ apiPath svc).

Definition getById (svc : DataService) (id : string) : DM body_data :=
  guarded
    (dbind (lift (get (ds_client svc) (apiPath svc ++ "/" ++ id) no_options))
       (fun response => dret (data response)))
    ("Failed to get item with ID " ++ id).

Definition create (svc : DataService) (item : jsval) : DM body_data :=
  guarded
    (dbind (lift (post (ds_client svc) (apiPath svc) item no_options)) (fun response =>
     let newItem := data response in
     dbind getItems (fun currentItems =>
     match spread_items currentItems with
     | Some l => dbind (setItems (IArr (l ++ [any_of_data newItem]))) (fun _ => dret newItem)
     | None => dthrow (type_error "currentItems is not iterable")
     end)))
    "Failed to create item".

Definition update (svc : DataService) (id : string) (item : jsval) : DM body_data :=
  guarded
    (dbind (lift (put (ds_client svc) (apiPath svc ++ "/" ++ id) item no_options)) (fun response =>
     let updatedItem := data response in
     dbind getItems (fun currentItems =>
     match array_items currentItems with
     | None => dthrow (type_error "currentItems.map is not a function")
     | Some l =>
         match map_update l id (any_of_data updatedItem) with
         | None => dthrow (type_error (id_read_error l))
         | Some updatedItems => dbind (setItems (IArr updatedItems)) (fun _ => dret updatedItem)
         end
     end)))
    ("Failed to update item with ID " ++ id).

Definition ds_delete (svc : DataService) (id : string) : DM unit :=
  guarded
    (dbind (lift (delete (ds_client svc) (apiPath svc ++ "/" ++ id) no_options)) (fun _ =>
     dbind getItems (fun currentItems =>
     match array_items currentItems with
     | None => dthrow (type_error "currentItems.filter is not a function")
     | Some l =>
         match filter_delete l id with
         | None => dthrow (type_error (id_read_error l))
         | Some updatedItems => setItems (IArr updatedItems)
         end
     end)))
    ("Failed to delete item with ID " ++ id).

(** [public async initialize()] *)
Definition ds_initialize (svc : DataService) : DM unit :=
  dcatch (dbind (getAll svc None) (fun items => setItems (items_of_data items)))
         (fun _ => setItems (IArr [])).

(** One [name=value] pair of the serialization. *)
Definition pair_enc (kv : string * string) : string :=
  (form_urlencode (fst kv) ++ "=" ++ form_urlencode (snd kv))%string.

(** [a] put in front of the first piece of a split. *)
Definition prepend (a : string) (l : list string) : list string :=
  match l with [] => [a] | h :: t => (a ++ h)%string :: t end.

(* ------------------------------------------------------------------ *)
(** ** [class ServiceRegistry]

    Object identity matters here (the singleton, the services the map
    holds), so every object the registry creates carries an allocation
    number. The [UserService] is not part of the sources at hand: it is an
    opaque service of its own kind. *)

Inductive ServiceKind : Type :=
| KUser
| KData (svc : DataService).

(** A service object: its allocation number and what it is. *)
Record ServiceRef : Type := {
  svc_ref : nat;
  svc_kind : ServiceKind
}.

(** The fields of the registry object; [services] is the [Map] with its
    entries in insertion order. *)
Record ServiceRegistry : Type := {
  services : list (string * ServiceRef);
  httpClient : HttpClient
}.

(** [map.set(k, v)]: an existing key keeps its place. *)
Fixpoint map_set (m : list (string * ServiceRef)) (k : string) (v : ServiceRef)
  : list (string * ServiceRef) :=
  match m with
  | [] => [(k, v)]
  | (k', v') :: m' => if String.eqb k k' then (k, v) :: m' else (k', v') :: map_set m' k v
  end.

(** [map.get(k)] *)
Fixpoint map_get (m : list (string * ServiceRef)) (k : string) : option ServiceRef :=
  match m with
  | [] => None
  | (k', v) :: m' => if String.eqb k k' then Some v else map_get m' k
  end.

(** [public registerService(key, service)] *)
Definition registerService (r : ServiceRegistry) (key : string) (service : ServiceRef)
  : ServiceRegistry :=
  {| services := map_set (services r) key service; httpClient := httpClient r |}.

(** [public getService(key)] *)
Definition getService (r : ServiceRegistry) (key : string) : outcome ServiceRef :=
  match map_get (services r) key with
  | Some service => Ok service
  | None => Throw (EError ("Service with key '" ++ key ++ "' not found in registry"))
  end.

(** [public getUserService()] *)
Definition getUserService (r : ServiceRegistry) : outcome ServiceRef :=
  getService r "userService".

(** [private registerUserService()]: [n] is the next allocation number. *)
Definition registerUserService (r : ServiceRegistry) (n : nat) : ServiceRegistry * nat :=
  (registerService r "userService" {| svc_ref := n; svc_kind := KUser |}, S n).

(** [private constructor(apiBaseUrl = '')] *)
Definition new_ServiceRegistry (apiBaseUrl : string) (n : nat) : ServiceRegistry * nat :=
  registerUserService {| services := []; httpClient := new_HttpClient apiBaseUrl no_options |} n.

(** [public getDataService(entityType)] *)
Definition getDataService (r : ServiceRegistry) (n : nat) (entityType : string)
  : outcome ServiceRef * (ServiceRegistry * nat) :=
  let serviceKey := ("dataService:" ++ entityType)%string in
  let '(r', n') :=
    match map_get (services r) serviceKey with
    | Some _ => (r, n)
    | None =>
        (registerService r serviceKey
           {| svc_ref := n;
              svc_kind := KData {| ds_client := httpClient r; apiPath := "/" ++ entityType |} |},
         S n)
    end in
  (getService r' serviceKey, (r', n')).

(** The static side: [ServiceRegistry.instance] and the next allocation
    number. *)
Record RegistryGlobal : Type := {
  instance : option ServiceRegistry;
  next_ref : nat
}.

(** [public static getInstance(apiBaseUrl = '')] *)
Definition getInstance (apiBaseUrl : string) (g : RegistryGlobal)
  : ServiceRegistry * RegistryGlobal :=
  match instance g with
  | Some r => (r, g)
  | None =>
      let '(r, n) := new_ServiceRegistry apiBaseUrl (next_ref g) in
      (r, {| instance := Some r; next_ref := n |})
  end.

(** [getServiceRegistry(apiBaseUrl = '')] *)
Definition getServiceRegistry (apiBaseUrl : string) (g : RegistryGlobal)
  : ServiceRegistry * RegistryGlobal :=
  getInstance apiBaseUrl g.

(** The calls a program makes: [getServiceRegistry(apiBaseUrl)], and the
    public methods, called on the instance it returned. *)
Inductive registry_call : Type :=
| CallGetInstance (apiBaseUrl : string)
| CallGetDataService (entityType : string)
| CallGetService (key : string)
| CallGetUserService
| CallRegisterService (key : string) (service : ServiceRef).

(** A method call on the instance: its new fields and the next allocation
    number. A call that throws leaves both as they were. *)
Definition call_method (r : ServiceRegistry) (n : nat) (c : registry_call)
  : ServiceRegistry * nat :=
  match c with
  | CallGetDataService e => snd (getDataService r n e)
  | CallRegisterService k sv => (registerService r k sv, n)
  | CallGetInstance _ | CallGetService _ | CallGetUserService => (r, n)
  end.

(** The static state after a sequence of calls; a method is called on
    the instance, so there is none to call it on before the first
    [getInstance]. *)
Fixpoint run_calls (g : RegistryGlobal) (cs : list registry_call) : RegistryGlobal :=
  match cs with
  | [] => g
  | CallGetInstance a :: cs' => run_calls (snd (getServiceRegistry a g)) cs'
  | c :: cs' =>
      match instance g with
      | Some r =>
          let '(r', n') := call_method r (next_ref g) c in
          run_calls {| instance := Some r'; next_ref := n' |} cs'
      | None => run_calls g cs'
      end
  end.

(** A call that registers a service object given by the caller under a
    key of the form [dataService:...], the form of the keys
    [getDataService] uses. *)
Definition registers_data_key (c : registry_call) : bool :=
  match c with CallRegisterService k _ => startsWith k "dataService:" | _ => false end.

(** The entries under a [dataService:...] key. *)
Definition data_entries (r : ServiceRegistry) : list (string * ServiceRef) :=
  filter (fun p => startsWith (fst p) "dataService:") (services r).

(** The allocation numbers of the objects under those keys. *)
Definition service_refs (r : ServiceRegistry) : list nat :=
  map (fun p => svc_ref (snd p)) (data_entries r).

(** The invariant of the instance: its client is the one built from the
    first base URL, and the user service is registered. *)
Definition registry_ok (a : string) (g : RegistryGlobal) : Prop :=
  exists r, instance g = Some r /\ httpClient r = new_HttpClient a no_options /\
            map_get (services r) "userService" <> None.

(** The objects under [dataService:...] keys are distinct and older than
    the next allocation. *)
Definition refs_fresh (r : ServiceRegistry) (n : nat) : Prop :=
  NoDup (service_refs r) /\ Forall (fun m => (m < n)%nat) (service_refs r).

(** A data service for the examples, on the demo client, and a fresh
    program without a registry. *)
Definition demo_service : DataService := {| ds_client := demo_client; apiPath := "/users" |}.

Definition fresh_global : RegistryGlobal := {| instance := None; next_ref := 0 |}.

(* ------------------------------------------------------------------ *)
(** ** Lemmas on the embedding *)

Ltac run_monad :=
  repeat (unfold executeRequest, finallyM, catchM, bind, emit, ret, throw, fetch,
            decode_body, response_json, response_text, response_blob, sleep,
            setLoading, advance in *; simpl in *).

Ltac close_quiet :=
  split; [reflexivity|];
  eexists; split; [rewrite <- !app_assoc; reflexivity | repeat constructor].

Lemma executeRequest_quiet client method url data options w :
  let '(o, w') := executeRequest client method url data options w in
  isLoading w' = isLoading w /\
  exists mid, trace w' = trace w ++ mid /\ Forall (quiet (isLoading w)) mid.
Proof.
  run_monad.
  destruct (transport _ _ _) as [r | e]; simpl; [|close_quiet].
  destruct (negb (response_ok r)); simpl; [close_quiet|].
  destruct (includes_opt _ "application/json").
  - destruct (json_parse (r_body r)); simpl; close_quiet.
  - destruct (includes_opt _ "text/"); simpl; close_quiet.
Qed.

Lemma executeRequestWithRetries_quiet client method url data options delay k w :
  let '(o, w') := executeRequestWithRetries client method url data options k delay w in
  isLoading w' = isLoading w /\
  exists mid, trace w' = trace w ++ mid /\ Forall (quiet (isLoading w)) mid.
Proof.
  revert w; induction k as [|k IH]; intro w; cbn [executeRequestWithRetries];
    unfold catchM;
    pose proof (executeRequest_quiet client method url data options w) as Hq;
    destruct (executeRequest client method url data options w) as [[a | e] w1];
    destruct Hq as [Hl [mid [Ht Hf]]]; unfold throw.
  - split; [assumption|]. exists mid; auto.
  - split; [assumption|]. exists mid; auto.
  - split; [assumption|]. exists mid; auto.
  - destruct (shouldRetry e); simpl.
    + unfold sleep, emit, bind.
      specialize (IH {| isLoading := isLoading w1; fetchCount := fetchCount w1;
                        trace := trace w1 ++ [EvSleep delay] |}).
      destruct (executeRequestWithRetries _ _ _ _ _ _ _ _) as [o w2].
      simpl in IH. destruct IH as [Hl2 [mid2 [Ht2 Hf2]]].
      split; [congruence|].
      exists (mid ++ EvSleep delay :: mid2). split.
      * rewrite Ht2, Ht, <- !app_assoc. reflexivity.
      * rewrite Hl in Hf2. apply Forall_app; split; [assumption|].
        constructor; [exact I | assumption].
    + split; [assumption|]. exists mid; auto.
Qed.

(** C9: a call writes the loading flag exactly twice, [true] on entry and
    [false] when the whole retry sequence has settled; in between only the
    attempts and the retry delays run, none of which writes the flag, and
    every [fetch] happens while the flag is [true]. *)
Theorem request_loading_single_toggle client method url data options w :
  let '(o, w') := request client method url data options w in
  isLoading w' = false /\
  exists mid, trace w' = trace w ++ EvLoading true :: mid ++ [EvLoading false] /\
              Forall (quiet true) mid.
Proof.
  unfold request, bind, setLoading, finallyM.
  set (w1 := {| isLoading := true; fetchCount := fetchCount w;
                trace := trace w ++ [EvLoading true] |}).
  pose proof (executeRequestWithRetries_quiet client method url data
                (merged_options client options)
                (default_prop (retryDelay (merged_options client options)) 1000)
                (Z.to_nat (default_prop (retries (merged_options client options)) 1)) w1)
    as Hq.
  destruct (executeRequestWithRetries _ _ _ _ _ _ _ w1) as [o w2].
  destruct Hq as [_ [mid [Ht Hf]]].
  split; [reflexivity|].
  exists mid. split; [|exact Hf].
  simpl. rewrite Ht. subst w1. simpl. rewrite <- !app_assoc. reflexivity.
Qed.

(** One attempt against a response that is not [ok]. *)
Lemma executeRequest_not_ok client method url data options w r :
  transport (fetchCount w) (buildUrl (baseUrl client) url)
    (request_init client method data options) = FetchResponse r ->
  response_ok r = false ->
  executeRequest client method url data options w =
  (Throw (EHttp (status_error r)),
   advance w 1 (attempt_events (timeout_ms (timeout options)) (buildUrl (baseUrl client) url)
                  (request_init client method data options) (isLoading w))).
Proof.
  intros Hr Hok.
  unfold executeRequest, finallyM, catchM, bind, emit, fetch, throw. simpl.
  rewrite Hr, Hok. simpl. unfold advance, attempt_events. simpl.
  rewrite <- !app_assoc, Nat.add_1_r. reflexivity.
Qed.

(** One attempt whose [fetch] rejects. *)
Lemma executeRequest_reject client method url data options w e :
  transport (fetchCount w) (buildUrl (baseUrl client) url)
    (request_init client method data options) = FetchReject e ->
  executeRequest client method url data options w =
  (Throw (wrap_error e),
   advance w 1 (attempt_events (timeout_ms (timeout options)) (buildUrl (baseUrl client) url)
                  (request_init client method data options) (isLoading w))).
Proof.
  intros Hr.
  unfold executeRequest, finallyM, catchM, bind, emit, fetch, throw. simpl.
  rewrite Hr. simpl. unfold advance, attempt_events. simpl.
  rewrite <- !app_assoc, Nat.add_1_r. reflexivity.
Qed.

(** One attempt against an [ok] response whose JSON body does not parse. *)
Lemma executeRequest_json_fail client method url data options w r msg :
  transport (fetchCount w) (buildUrl (baseUrl client) url)
    (request_init client method data options) = FetchResponse r ->
  response_ok r = true ->
  includes_opt (obj_get (r_headers r) "content-type") "application/json" = true ->
  json_parse (r_body r) = inr msg ->
  executeRequest client method url data options w =
  (Throw (EHttp {| err_message := msg; err_status := 0; err_response := None |}),
   advance w 1 (json_attempt_events (timeout_ms (timeout options))
                  (buildUrl (baseUrl client) url)
                  (request_init client method data options) (isLoading w))).
Proof.
  intros Hr Hok Hct Hp.
  unfold executeRequest, finallyM, catchM, bind, emit, fetch, throw,
    decode_body, response_json. simpl.
  rewrite Hr, Hok. simpl. rewrite Hct, Hp. simpl.
  unfold advance, json_attempt_events. simpl.
  rewrite <- !app_assoc, Nat.add_1_r. reflexivity.
Qed.

(** The retry loop when every attempt fails with a retryable error: the
    budget [k] is spent one by one, [k + 1] attempts run, separated by
    the constant delay, and the error of the last attempt is raised. *)
Lemma executeRequestWithRetries_exhaust client method url data options delay
  (err : nat -> js_error) (evs : bool -> list event) :
  (forall w, executeRequest client method url data options w =
             (Throw (err (fetchCount w)), advance w 1 (evs (isLoading w)))) ->
  (forall i, shouldRetry (err i) = true) ->
  forall k w,
  executeRequestWithRetries client method url data options k delay w =
  (Throw (err (fetchCount w + k)%nat),
   advance w (S k) (evs (isLoading w) ++
                    concat (repeat (EvSleep delay :: evs (isLoading w)) k))).
Proof.
  intros Hexec Hretry k. induction k as [|k IH]; intro w;
    cbn [executeRequestWithRetries]; unfold catchM; rewrite Hexec.
  - simpl. rewrite Nat.add_0_r, app_nil_r. reflexivity.
  - rewrite Hretry. simpl. unfold sleep, emit, bind. rewrite IH.
    unfold advance; simpl. f_equal.
    + do 2 f_equal. lia.
    + f_equal; [lia|]. rewrite <- !app_assoc. reflexivity.
Qed.

(** The retry loop when every attempt fails with the same error [e]: that
    error is raised, whatever the budget. *)
Lemma executeRequestWithRetries_same_error client method url data options delay e :
  (forall w, exists w', executeRequest client method url data options w = (Throw e, w')) ->
  forall k w,
  fst (executeRequestWithRetries client method url data options k delay w) = Throw e.
Proof.
  intros Hexec k. induction k as [|k IH]; intro w;
    cbn [executeRequestWithRetries]; unfold catchM;
    destruct (Hexec w) as [w' Hw]; rewrite Hw; simpl.
  - reflexivity.
  - destruct (shouldRetry e); simpl; [|reflexivity].
    unfold sleep, emit, bind. apply IH.
Qed.

Lemma fetches_app l1 l2 : fetches (l1 ++ l2) = fetches l1 ++ fetches l2.
Proof.
  induction l1 as [|ev l1 IH]; [reflexivity|].
  destruct ev; simpl; rewrite ?IH; reflexivity.
Qed.

Lemma fetches_repeat_attempt t u i l d k :
  fetches (concat (repeat (EvSleep d :: attempt_events t u i l) k)) = repeat (u, i) k.
Proof.
  induction k as [|k IH]; [reflexivity|].
  simpl. rewrite IH. reflexivity.
Qed.

Lemma fetches_repeat_json_attempt t u i l d k :
  fetches (concat (repeat (EvSleep d :: json_attempt_events t u i l) k)) = repeat (u, i) k.
Proof.
  induction k as [|k IH]; [reflexivity|].
  simpl. rewrite IH. reflexivity.
Qed.

(** A whole call whose attempts all fail with retryable errors, with the
    merged retry budget [n]. *)
Lemma request_exhaust client method url data options n w
  (err : nat -> js_error) (evs : bool -> list event) :
  retries (merged_options client options) = Val (Z.of_nat n) ->
  (forall w, executeRequest client method url data (merged_options client options) w =
             (Throw (err (fetchCount w)), advance w 1 (evs (isLoading w)))) ->
  (forall i, shouldRetry (err i) = true) ->
  request client method url data options w =
  (Throw (err (fetchCount w + n)%nat),
   {| isLoading := false; fetchCount := (fetchCount w + S n)%nat;
      trace := trace w ++ EvLoading true :: evs true ++
               concat (repeat (EvSleep (default_prop (retryDelay (merged_options client options)) 1000)
                               :: evs true) n) ++ [EvLoading false] |}).
Proof.
  intros Hn Hexec Hretry.
  unfold request. rewrite Hn. cbn [default_prop]. rewrite Nat2Z.id.
  unfold bind, setLoading, finallyM.
  rewrite (executeRequestWithRetries_exhaust _ _ _ _ _ _ err evs Hexec Hretry).
  unfold advance. simpl. rewrite <- !app_assoc. reflexivity.
Qed.

(** C1: with the merged retry budget [maxRetries = n] and a network that
    answers every attempt with status 500, a call makes exactly [n + 1]
    attempts, all to the same URL with the same [RequestInit] (built from
    the same merged options), and raises the [HttpError] of the last
    attempt, whose status is 500. *)
Theorem request_always_500 client method url data options n w :
  retries (merged_options client options) = Val (Z.of_nat n) ->
  (forall i u init, exists r, transport i u init = FetchResponse r /\ r_status r = 500) ->
  let fullUrl := buildUrl (baseUrl client) url in
  let init := request_init client method data (merged_options client options) in
  let '(o, w') := request client method url data options w in
  fetchCount w' = (fetchCount w + S n)%nat /\
  (exists new, trace w' = trace w ++ new /\ fetches new = repeat (fullUrl, init) (S n)) /\
  exists r, transport (fetchCount w + n)%nat fullUrl init = FetchResponse r /\
            o = Throw (EHttp (status_error r)) /\ err_status (status_error r) = 500.
Proof.
  intros Hn H500 fullUrl init.
  set (err := fun i => match transport i fullUrl init with
                       | FetchResponse r => EHttp (status_error r)
                       | FetchReject e => wrap_error e
                       end).
  set (evs := attempt_events (timeout_ms (timeout (merged_options client options))) fullUrl init).
  assert (Hexec : forall w, executeRequest client method url data (merged_options client options) w =
                            (Throw (err (fetchCount w)), advance w 1 (evs (isLoading w)))).
  { intro w0. destruct (H500 (fetchCount w0) fullUrl init) as [r [Hr Hs]].
    unfold err. rewrite Hr.
    apply executeRequest_not_ok; [exact Hr|].
    unfold response_ok. rewrite Hs. reflexivity. }
  assert (Hretry : forall i, shouldRetry (err i) = true).
  { intro i. destruct (H500 i fullUrl init) as [r [Hr Hs]].
    unfold err. rewrite Hr. simpl. rewrite Hs. reflexivity. }
  rewrite (request_exhaust client method url data options n w err evs Hn Hexec Hretry).
  split; [reflexivity|]. split.
  - eexists; split; [reflexivity|].
    cbn [fetches]. rewrite !fetches_app. unfold evs.
    rewrite fetches_repeat_attempt. simpl. rewrite app_nil_r. reflexivity.
  - destruct (H500 (fetchCount w + n)%nat fullUrl init) as [r [Hr Hs]].
    exists r. split; [exact Hr|]. split; [unfold err; rewrite Hr; reflexivity|].
    exact Hs.
Qed.

(** C10: when every attempt gets a 2xx response whose content type selects
    JSON decoding but whose body does not parse, the [SyntaxError] of
    [JSON.parse] is caught and turned into an [HttpError] of status 0 with
    the parser's message; status 0 is retryable, so the call spends its
    retry budget [n] like on a network failure: [n + 1] attempts, and the
    error of the last one is raised. *)
Theorem request_json_parse_failure_retried client method url data options n w :
  let fullUrl := buildUrl (baseUrl client) url in
  let init := request_init client method data (merged_options client options) in
  retries (merged_options client options) = Val (Z.of_nat n) ->
  (forall i, exists r msg, transport i fullUrl init = FetchResponse r /\
     response_ok r = true /\
     includes_opt (obj_get (r_headers r) "content-type") "application/json" = true /\
     json_parse (r_body r) = inr msg) ->
  let '(o, w') := request client method url data options w in
  fetchCount w' = (fetchCount w + S n)%nat /\
  (exists new, trace w' = trace w ++ new /\ fetches new = repeat (fullUrl, init) (S n)) /\
  exists r msg, transport (fetchCount w + n)%nat fullUrl init = FetchResponse r /\
    json_parse (r_body r) = inr msg /\
    o = Throw (EHttp {| err_message := msg; err_status := 0; err_response := None |}).
Proof.
  intros fullUrl init Hn Hbad.
  set (err := fun i => match transport i fullUrl init with
                       | FetchResponse r =>
                           match json_parse (r_body r) with
                           | inr msg => EHttp {| err_message := msg; err_status := 0;
                                                 err_response := None |}
                           | inl _ => ENonError
                           end
                       | FetchReject e => wrap_error e
                       end).
  set (evs := json_attempt_events (timeout_ms (timeout (merged_options client options)))
                fullUrl init).
  assert (Hexec : forall w, executeRequest client method url data (merged_options client options) w =
                            (Throw (err (fetchCount w)), advance w 1 (evs (isLoading w)))).
  { intro w0. destruct (Hbad (fetchCount w0)) as [r [msg [Hr [Hok [Hct Hp]]]]].
    unfold err. rewrite Hr, Hp.
    exact (executeRequest_json_fail client method url data _ w0 r msg Hr Hok Hct Hp). }
  assert (Hretry : forall i, shouldRetry (err i) = true).
  { intro i. destruct (Hbad i) as [r [msg [Hr [_ [_ Hp]]]]].
    unfold err. rewrite Hr, Hp. reflexivity. }
  rewrite (request_exhaust client method url data options n w err evs Hn Hexec Hretry).
  split; [reflexivity|]. split.
  - eexists; split; [reflexivity|].
    cbn [fetches]. rewrite !fetches_app. unfold evs.
    rewrite fetches_repeat_json_attempt. simpl. rewrite app_nil_r. reflexivity.
  - destruct (Hbad (fetchCount w + n)%nat) as [r [msg [Hr [_ [_ Hp]]]]].
    exists r, msg. split; [exact Hr|]. split; [exact Hp|].
    unfold err. rewrite Hr, Hp. reflexivity.
Qed.


Lemma wrap_error_http e : exists h, wrap_error e = EHttp h.
Proof.
  destruct e as [h | name msg | msg |]; simpl; eauto.
  destruct (String.eqb name "AbortError"); eauto.
Qed.

(** Every failure of an attempt is an [HttpError]. *)
Lemma executeRequest_throws_http client method url data options w e w1 :
  executeRequest client method url data options w = (Throw e, w1) ->
  exists h, e = EHttp h.
Proof.
  run_monad.
  destruct (transport _ _ _) as [r | e0]; simpl;
    [| intro H; injection H as <- _; apply wrap_error_http].
  destruct (negb (response_ok r)); simpl; [intro H; injection H as <- _; eauto|].
  destruct (includes_opt _ "application/json").
  - destruct (json_parse (r_body r)); simpl; intro H; [discriminate|].
    injection H as <- _; eauto.
  - destruct (includes_opt _ "text/"); simpl; intro H; discriminate.
Qed.

(** C2: a failure is retryable exactly when it is an [HttpError] of status 0
    or of a status in [500, 600); after a failed attempt the loop makes
    another attempt (after the delay, with one unit of budget less)
    exactly when the failure is retryable and the budget is positive, and
    raises the failure otherwise; every attempt failure is an [HttpError];
    and a call whose first attempt gets a non-2xx status outside 0 and
    [500, 600), such as 404, raises it after exactly one attempt, whatever
    the retry budget. *)
Theorem retry_policy :
  (forall e, shouldRetry e = true <->
             exists h, e = EHttp h /\ (err_status h = 0 \/ 500 <= err_status h < 600)) /\
  (forall client method url data options delay k w e w1,
     executeRequest client method url data options w = (Throw e, w1) ->
     executeRequestWithRetries client method url data options k delay w =
     if Nat.ltb 0 k && shouldRetry e then
       executeRequestWithRetries client method url data options (k - 1) delay
         {| isLoading := isLoading w1; fetchCount := fetchCount w1;
            trace := trace w1 ++ [EvSleep delay] |}
     else (Throw e, w1)) /\
  (forall client method url data options w e w1,
     executeRequest client method url data options w = (Throw e, w1) ->
     exists h, e = EHttp h) /\
  (forall client method url data options w r,
     let fullUrl := buildUrl (baseUrl client) url in
     let init := request_init client method data (merged_options client options) in
     transport (fetchCount w) fullUrl init = FetchResponse r ->
     (r_status r < 200 \/ 300 <= r_status r) ->
     r_status r <> 0 -> ~ (500 <= r_status r < 600) ->
     let '(o, w') := request client method url data options w in
     o = Throw (EHttp (status_error r)) /\
     fetchCount w' = S (fetchCount w) /\
     exists new, trace w' = trace w ++ new /\ fetches new = [(fullUrl, init)]).
Proof.
  split; [|split; [|split]].
  - intros [h | name msg | msg |]; simpl; split;
      try discriminate; try (intros [h' [Hh _]]; discriminate).
    + intro H. exists h. split; [reflexivity|].
      apply orb_true_iff in H as [H | H].
      * left. apply Z.eqb_eq. exact H.
      * right. apply andb_true_iff in H as [H1 H2].
        apply Z.leb_le in H1. apply Z.ltb_lt in H2. lia.
    + intros [h' [Hh Hs]]. injection Hh as <-.
      apply orb_true_iff. destruct Hs as [Hs | Hs].
      * left. apply Z.eqb_eq. exact Hs.
      * right. apply andb_true_iff. split; [apply Z.leb_le | apply Z.ltb_lt]; lia.
  - intros client method url data options delay k w e w1 H.
    destruct k as [|k]; cbn [executeRequestWithRetries]; unfold catchM; rewrite H.
    + reflexivity.
    + simpl. rewrite Nat.sub_0_r. destruct (shouldRetry e); reflexivity.
  - intros. eapply executeRequest_throws_http. eassumption.
  - intros client method url data options w r fullUrl init Hr Hst H0 H5.
    assert (Hok : response_ok r = false).
    { unfold response_ok. destruct Hst; apply andb_false_iff.
      - left. apply Z.leb_gt. lia.
      - right. apply Z.leb_gt. lia. }
    assert (Hsr : shouldRetry (EHttp (status_error r)) = false).
    { simpl. apply orb_false_iff. split.
      - apply Z.eqb_neq. exact H0.
      - apply andb_false_iff. destruct (Z_lt_le_dec (r_status r) 500).
        + left. apply Z.leb_gt. lia.
        + right. apply Z.ltb_ge. lia. }
    unfold request, bind, setLoading, finallyM.
    set (w1 := {| isLoading := true; fetchCount := fetchCount w;
                  trace := trace w ++ [EvLoading true] |}).
    set (k := Z.to_nat _). set (d := default_prop _ 1000).
    assert (Hx : executeRequestWithRetries client method url data
                   (merged_options client options) k d w1 =
                 (Throw (EHttp (status_error r)),
                  advance w1 1 (attempt_events (timeout_ms (timeout (merged_options client options)))
                                  fullUrl init true))).
    { destruct k as [|k]; cbn [executeRequestWithRetries]; unfold catchM;
        rewrite (executeRequest_not_ok _ _ _ _ _ w1 r Hr Hok); [reflexivity|].
      cbv beta. rewrite Hsr. reflexivity. }
    rewrite Hx. simpl. split; [reflexivity|]. split; [lia|].
    eexists; split; [rewrite <- !app_assoc; reflexivity | reflexivity].
Qed.

(** C3: a response whose status is outside [200, 300) makes the attempt
    raise the [HttpError] with that status, the message
    ["Request failed with status {status}"] and the response, without
    reading the body; and a call against a network that keeps answering
    with that response raises that [HttpError]. *)
Theorem non_2xx_raises_status_error client method url data options w r :
  (r_status r < 200 \/ 300 <= r_status r) ->
  (transport (fetchCount w) (buildUrl (baseUrl client) url)
     (request_init client method data options) = FetchResponse r ->
   let '(o, w') := executeRequest client method url data options w in
   o = Throw (EHttp {| err_message := "Request failed with status " ++ string_of_Z (r_status r);
                       err_status := r_status r; err_response := Some r |}) /\
   exists new, trace w' = trace w ++ new /\ forall k, ~ In (EvReadBody k) new) /\
  ((forall i, transport i (buildUrl (baseUrl client) url)
                (request_init client method data (merged_options client options)) =
              FetchResponse r) ->
   fst (request client method url data options w) = Throw (EHttp (status_error r))).
Proof.
  intros Hst.
  assert (Hok : response_ok r = false).
  { unfold response_ok. destruct Hst; apply andb_false_iff.
    - left. apply Z.leb_gt. lia.
    - right. apply Z.leb_gt. lia. }
  split.
  - intros Hr. rewrite (executeRequest_not_ok client method url data options w r Hr Hok).
    split; [reflexivity|]. eexists; split; [reflexivity|].
    intros k [H | [H | [H | []]]]; discriminate.
  - intros Hall.
    unfold request, bind, setLoading, finallyM.
    set (w1 := {| isLoading := true; fetchCount := fetchCount w;
                  trace := trace w ++ [EvLoading true] |}).
    pose proof (executeRequestWithRetries_same_error client method url data
                  (merged_options client options)
                  (default_prop (retryDelay (merged_options client options)) 1000)
                  (EHttp (status_error r))) as Hs.
    assert (Hx : forall w0, exists w', executeRequest client method url data
                   (merged_options client options) w0 = (Throw (EHttp (status_error r)), w')).
    { intro w0. eexists. apply executeRequest_not_ok; [apply Hall | exact Hok]. }
    specialize (Hs Hx (Z.to_nat (default_prop (retries (merged_options client options)) 1)) w1).
    destruct (executeRequestWithRetries _ _ _ _ _ _ _ w1) as [o w2].
    simpl in Hs |- *. exact Hs.
Qed.

(** C7: a [fetch] rejected by the fired abort signal ([DOMException]
    [AbortError]) makes the attempt raise [HttpError("Request timeout", 0)];
    any other [Error] rejection raises an [HttpError] of status 0 with that
    error's message. Neither carries a response: only the message tells
    them apart. *)
Theorem transport_errors_status_0 client method url data options w :
  let fullUrl := buildUrl (baseUrl client) url in
  let init := request_init client method data options in
  (forall msg, transport (fetchCount w) fullUrl init = FetchReject (EDOMException "AbortError" msg) ->
     fst (executeRequest client method url data options w) =
     Throw (EHttp {| err_message := "Request timeout"; err_status := 0; err_response := None |})) /\
  (forall e msg, transport (fetchCount w) fullUrl init = FetchReject e ->
     (e = EError msg \/ exists name, e = EDOMException name msg /\ name <> "AbortError") ->
     fst (executeRequest client method url data options w) =
     Throw (EHttp {| err_message := msg; err_status := 0; err_response := None |})).
Proof.
  intros fullUrl init. split.
  - intros msg Hr. rewrite (executeRequest_reject _ _ _ _ _ _ _ Hr). reflexivity.
  - intros e msg Hr He. rewrite (executeRequest_reject _ _ _ _ _ _ _ Hr). simpl.
    destruct He as [-> | [name [-> Hn]]]; [reflexivity|].
    simpl. apply String.eqb_neq in Hn. rewrite Hn. reflexivity.
Qed.

(** C6 (as amended): for a 2xx response the body decoding dispatches on
    case-sensitive substring tests of the [content-type] header: a value
    containing ["application/json"] is parsed as JSON, else a value
    containing ["text/"] is read as text, else (also with no header) the
    body is read as a blob. *)
Theorem decode_dispatch_by_substring client method url data options w r :
  transport (fetchCount w) (buildUrl (baseUrl client) url)
    (request_init client method data options) = FetchResponse r ->
  200 <= r_status r < 300 ->
  let ct := obj_get (r_headers r) "content-type" in
  let mk d := {| data := d; res_status := r_status r; res_headers := r_headers r;
                 ok := true |} in
  fst (executeRequest client method url data options w) =
  if includes_opt ct "application/json" then
    match json_parse (r_body r) with
    | inl v => Ok (mk (DJson v))
    | inr msg => Throw (EHttp {| err_message := msg; err_status := 0; err_response := None |})
    end
  else if includes_opt ct "text/" then Ok (mk (DText (r_body r)))
  else Ok (mk (DBlob (r_body r))).
Proof.
  intros Hr Hst ct mk.
  assert (Hok : response_ok r = true).
  { unfold response_ok. apply andb_true_iff. split; [apply Z.leb_le | apply Z.leb_le]; lia. }
  unfold executeRequest, finallyM, catchM, bind, emit, fetch, throw, ret,
    decode_body, response_json, response_text, response_blob. simpl.
  rewrite Hr, Hok. simpl. fold ct.
  destruct (includes_opt ct "application/json").
  - destruct (json_parse (r_body r)); reflexivity.
  - destruct (includes_opt ct "text/"); reflexivity.
Qed.

Ltac close_sends :=
  eexists; split; [rewrite <- !app_assoc; reflexivity | repeat constructor].

Lemma executeRequest_sends client method url data options w :
  exists mid, trace (snd (executeRequest client method url data options w)) = trace w ++ mid /\
    Forall (sends (buildUrl (baseUrl client) url) (request_init client method data options)) mid.
Proof.
  run_monad.
  destruct (transport _ _ _) as [r | e]; simpl; [|close_sends].
  destruct (negb (response_ok r)); simpl; [close_sends|].
  destruct (includes_opt _ "application/json").
  - destruct (json_parse (r_body r)); simpl; close_sends.
  - destruct (includes_opt _ "text/"); simpl; close_sends.
Qed.

Lemma executeRequestWithRetries_sends client method url data options delay k w :
  exists mid,
    trace (snd (executeRequestWithRetries client method url data options k delay w)) =
    trace w ++ mid /\
    Forall (sends (buildUrl (baseUrl client) url) (request_init client method data options)) mid.
Proof.
  revert w; induction k as [|k IH]; intro w; cbn [executeRequestWithRetries];
    unfold catchM;
    pose proof (executeRequest_sends client method url data options w) as [mid [Ht Hf]];
    destruct (executeRequest client method url data options w) as [[a | e] w1];
    simpl in Ht; unfold throw.
  - exists mid; auto.
  - exists mid; auto.
  - exists mid; auto.
  - destruct (shouldRetry e); simpl; [|exists mid; auto].
    unfold sleep, emit, bind.
    destruct (IH {| isLoading := isLoading w1; fetchCount := fetchCount w1;
                    trace := trace w1 ++ [EvSleep delay] |}) as [mid2 [Ht2 Hf2]].
    exists (mid ++ EvSleep delay :: mid2). split.
    + rewrite Ht2. simpl. rewrite Ht, <- !app_assoc. reflexivity.
    + apply Forall_app; split; [assumption|]. constructor; [exact I | assumption].
Qed.

Lemma obj_get_set o k v k' :
  obj_get (obj_set o k v) k' = if String.eqb k' k then Some v else obj_get o k'.
Proof.
  induction o as [|[k0 v0] o IH]; simpl; [reflexivity|].
  destruct (String.eqb_spec k k0) as [-> | Hne]; simpl.
  - destruct (String.eqb k' k0); reflexivity.
  - rewrite IH. destruct (String.eqb_spec k' k0) as [E0 | Hne0];
      destruct (String.eqb_spec k' k) as [E1 | Hne1]; subst; congruence.
Qed.

Lemma obj_get_not_in o k : ~ In k (map fst o) -> obj_get o k = None.
Proof.
  induction o as [|[k0 v0] o IH]; simpl; [reflexivity|].
  intros Hn. destruct (String.eqb_spec k k0) as [-> | _]; [tauto|].
  apply IH. tauto.
Qed.

(** [{ ...a, ...b }] looks a key up in [b] first, then in [a]. *)
Lemma obj_get_spread a b k :
  NoDup (map fst b) ->
  obj_get (obj_spread a b) k =
  match obj_get b k with Some v => Some v | None => obj_get a k end.
Proof.
  unfold obj_spread. revert a.
  induction b as [|[k1 v1] b IH]; intros a Hnd; simpl; [reflexivity|].
  inversion Hnd as [|? ? Hnin Hnd']; subst.
  rewrite IH by assumption. rewrite obj_get_set.
  destruct (String.eqb_spec k k1) as [-> | Hne].
  - rewrite obj_get_not_in by assumption. reflexivity.
  - reflexivity.
Qed.

(** C8 (as amended): every [fetch] of a call goes to the same URL with the
    same [RequestInit]; when the body argument is truthy that init carries
    [JSON.stringify(body)]; its headers are the client's default headers
    overridden key by key by the call's headers; and a client that keeps
    the built-in default headers (its constructor got no [headers] option)
    sends [Content-Type: application/json] unless the call overrides that
    key. *)
Theorem request_body_and_headers client method url data options w :
  let fullUrl := buildUrl (baseUrl client) url in
  let init := request_init client method data (merged_options client options) in
  let callHeaders := obj_of_prop (headers (merged_options client options)) in
  (exists mid, trace (snd (request client method url data options w)) = trace w ++ mid /\
               Forall (sends fullUrl init) mid) /\
  (truthy data = true -> body init = Some (json_stringify data)) /\
  (NoDup (map fst callHeaders) ->
   forall k, obj_get (fi_headers init) k =
             match obj_get callHeaders k with
             | Some v => Some v
             | None => obj_get (obj_of_prop (headers (defaultOptions client))) k
             end) /\
  (forall base opts,
     client = new_HttpClient base opts -> headers opts = Absent ->
     NoDup (map fst (obj_of_prop (headers options))) ->
     obj_get (obj_of_prop (headers options)) "Content-Type" = None ->
     obj_get (fi_headers init) "Content-Type" = Some "application/json").
Proof.
  intros fullUrl init callHeaders. split; [|split; [|split]].
  - unfold request, bind, setLoading, finallyM.
    set (w1 := {| isLoading := true; fetchCount := fetchCount w;
                  trace := trace w ++ [EvLoading true] |}).
    destruct (executeRequestWithRetries_sends client method url data
                (merged_options client options)
                (default_prop (retryDelay (merged_options client options)) 1000)
                (Z.to_nat (default_prop (retries (merged_options client options)) 1)) w1)
      as [mid [Ht Hf]].
    destruct (executeRequestWithRetries _ _ _ _ _ _ _ w1) as [o w2].
    simpl in Ht |- *.
    exists (EvLoading true :: mid ++ [EvLoading false]). split.
    + rewrite Ht. rewrite <- !app_assoc. reflexivity.
    + constructor; [exact I|]. apply Forall_app; split; [exact Hf|].
      repeat constructor.
  - intros Ht. unfold init, request_init. simpl. rewrite Ht. reflexivity.
  - intros Hnd k. unfold init, request_init. simpl.
    apply obj_get_spread. exact Hnd.
  - intros base opts -> Habs Hnd Hct.
    unfold init, request_init, merged_options, new_HttpClient. simpl.
    rewrite Habs. simpl.
    destruct (headers options) as [| | h]; simpl; [reflexivity | reflexivity |].
    rewrite obj_get_spread by exact Hnd. simpl in Hct. rewrite Hct. reflexivity.
Qed.

Lemma last_char_app_slash b : last_char (b ++ "/")%string = Some "/"%char.
Proof.
  induction b as [|c b IH]; [reflexivity|].
  simpl. destruct b; [reflexivity|]. exact IH.
Qed.

Lemma dropLast_app_slash b : dropLast (b ++ "/")%string = b.
Proof.
  induction b as [|c b IH]; [reflexivity|].
  simpl. destruct b; [reflexivity|]. rewrite IH. reflexivity.
Qed.

Lemma endsWithSlash_app_slash b : endsWithSlash (b ++ "/")%string = true.
Proof. unfold endsWithSlash. rewrite last_char_app_slash. reflexivity. Qed.

Lemma buildUrl_relative b p :
  startsWith p "http://" = false -> startsWith p "https://" = false ->
  startsWith p "/" = false ->
  buildUrl (b ++ "/")%string p = (b ++ "/" ++ p)%string /\
  buildUrl (b ++ "/")%string ("/" ++ p)%string = (b ++ "/" ++ p)%string /\
  (endsWithSlash b = false -> buildUrl b p = (b ++ "/" ++ p)%string) /\
  (endsWithSlash b = false -> buildUrl b ("/" ++ p)%string = (b ++ "/" ++ p)%string).
Proof.
  intros H1 H2 H3. unfold buildUrl.
  assert (H1' : startsWith ("/" ++ p)%string "http://" = false) by reflexivity.
  assert (H2' : startsWith ("/" ++ p)%string "https://" = false) by reflexivity.
  assert (H3' : startsWith ("/" ++ p)%string "/" = true) by (destruct p; reflexivity).
  rewrite H1, H2, H1', H2', H3', H3, endsWithSlash_app_slash, dropLast_app_slash. cbn [orb].
  repeat split; intro Hb; rewrite Hb; reflexivity.
Qed.

Lemma str_app_slash_slash b : ((b ++ "/") ++ "/")%string = (b ++ "//")%string.
Proof. induction b as [|x b IH]; simpl; [reflexivity | f_equal; exact IH]. Qed.

Lemma str_app_slash_slash_app b p : ((b ++ "/") ++ "/" ++ p)%string = (b ++ "//" ++ p)%string.
Proof. induction b as [|x b IH]; simpl; [reflexivity | f_equal; exact IH]. Qed.

(** C5 (as corrected): [buildUrl] uses the path as it is exactly when it
    starts with the lowercase prefix [http://] or [https://]; the test is
    case-sensitive, so a path starting with [HTTPS://] or [HTTP://] is
    joined to the base like a relative one. Any other path is joined after
    removing one trailing slash of the base, if any, and adding a leading
    slash to the path if it has none: a base with at most one trailing
    slash and a path with at most one leading slash are joined with
    exactly one slash in the four combinations, while a base ending in two
    slashes keeps one of them. The three joins of the spec give
    ["https://api.example.com/users/1"]. *)
Theorem buildUrl_one_slash :
  (forall base rest, buildUrl base ("http://" ++ rest)%string = ("http://" ++ rest)%string) /\
  (forall base rest, buildUrl base ("https://" ++ rest)%string = ("https://" ++ rest)%string) /\
  (forall b p (trailing leading : bool),
     endsWithSlash b = false -> startsWith p "/" = false ->
     startsWith p "http://" = false -> startsWith p "https://" = false ->
     buildUrl (if trailing then (b ++ "/")%string else b) (if leading then ("/" ++ p)%string else p) =
     (b ++ "/" ++ p)%string) /\
  (forall b rest, endsWithSlash b = false ->
     buildUrl b ("HTTPS://" ++ rest)%string = (b ++ "/" ++ "HTTPS://" ++ rest)%string /\
     buildUrl b ("HTTP://" ++ rest)%string = (b ++ "/" ++ "HTTP://" ++ rest)%string) /\
  (forall b p, startsWith p "/" = false ->
     startsWith p "http://" = false -> startsWith p "https://" = false ->
     buildUrl (b ++ "//")%string p = (b ++ "//" ++ p)%string) /\
  buildUrl "https://api.example.com/" "/users/1" = "https://api.example.com/users/1" /\
  buildUrl "https://api.example.com" "users/1" = "https://api.example.com/users/1" /\
  buildUrl "https://api.example.com/" "users/1" = "https://api.example.com/users/1".
Proof.
  split; [intros base rest; destruct rest; reflexivity|].
  split; [intros base rest; destruct rest; reflexivity|].
  split.
  { intros b p trailing leading Hb Hp H1 H2.
    destruct (buildUrl_relative b p H1 H2 Hp) as [Ha [Hc [Hd He]]].
    destruct trailing, leading; auto. }
  split.
  { intros b rest Hb.
    destruct (buildUrl_relative b ("HTTPS://" ++ rest) eq_refl eq_refl eq_refl) as [_ [_ [Ha _]]].
    destruct (buildUrl_relative b ("HTTP://" ++ rest) eq_refl eq_refl eq_refl) as [_ [_ [Hc _]]].
    split; [exact (Ha Hb) | exact (Hc Hb)]. }
  split.
  { intros b p Hp H1 H2.
    destruct (buildUrl_relative (b ++ "/") p H1 H2 Hp) as [Ha _].
    rewrite str_app_slash_slash in Ha. rewrite Ha. apply str_app_slash_slash_app. }
  repeat split.
Qed.

(* ------------------------------------------------------------------ *)
(** ** Further properties of the client *)

Ltac close_shape rb :=
  split; [reflexivity|]; split; [reflexivity|];
  exists rb; split;
  [rewrite <- !app_assoc; reflexivity
  | first [left; reflexivity | right; eexists; reflexivity]].

(** The effects of one attempt: arm the timer, one [fetch], at most one
    body read, clear the timer. *)
Lemma executeRequest_shape client method url data options w :
  let '(o, w') := executeRequest client method url data options w in
  fetchCount w' = S (fetchCount w) /\ isLoading w' = isLoading w /\
  exists rb, trace w' = trace w ++ EvSetTimeout (timeout_ms (timeout options)) ::
               EvFetch (buildUrl (baseUrl client) url) (request_init client method data options)
                 (isLoading w) :: rb ++ [EvClearTimeout] /\
             (rb = [] \/ exists k, rb = [EvReadBody k]).
Proof.
  run_monad.
  destruct (transport _ _ _) as [r | e]; simpl; [|close_shape (@nil event)].
  destruct (negb (response_ok r)); simpl; [close_shape (@nil event)|].
  destruct (includes_opt _ "application/json").
  - destruct (json_parse (r_body r)); simpl; close_shape [EvReadBody ReadJson].
  - destruct (includes_opt _ "text/"); simpl;
      [close_shape [EvReadBody ReadText] | close_shape [EvReadBody ReadBlob]].
Qed.

Lemma sleeps_app l1 l2 : sleeps (l1 ++ l2) = sleeps l1 ++ sleeps l2.
Proof.
  induction l1 as [|ev l1 IH]; [reflexivity|].
  destruct ev; simpl; rewrite ?IH; reflexivity.
Qed.

Ltac close_one_attempt Ht Hf1 Hf2 :=
  eexists; split; [exact Ht|];
  rewrite ?fetches_app, ?sleeps_app; simpl;
  rewrite ?fetches_app, ?sleeps_app, Hf1, Hf2; simpl;
  split; [constructor|]; split; [reflexivity|]; split; lia.

(** Over the retry loop with budget [k]: every delay is [d], there is one
    delay less than there are fetches, at most [k + 1] fetches, and the
    fetch counter counts them. *)
Lemma executeRequestWithRetries_counts client method url data options d k w :
  let '(o, w') := executeRequestWithRetries client method url data options k d w in
  exists new, trace w' = trace w ++ new /\
    Forall (fun x => x = d) (sleeps new) /\
    length (fetches new) = S (length (sleeps new)) /\
    (length (fetches new) <= S k)%nat /\
    fetchCount w' = (fetchCount w + length (fetches new))%nat.
Proof.
  revert w; induction k as [|k IH]; intro w; cbn [executeRequestWithRetries];
    unfold catchM;
    pose proof (executeRequest_shape client method url data options w) as Hs;
    destruct (executeRequest client method url data options w) as [[a | e] w1];
    destruct Hs as [Hc [_ [rb [Ht Hrb]]]];
    assert (Hf : fetches rb = [] /\ sleeps rb = [])
      by (destruct Hrb as [-> | [kk ->]]; split; reflexivity);
    destruct Hf as [Hf1 Hf2]; unfold throw.
  - close_one_attempt Ht Hf1 Hf2.
  - close_one_attempt Ht Hf1 Hf2.
  - close_one_attempt Ht Hf1 Hf2.
  - destruct (shouldRetry e); simpl; [|close_one_attempt Ht Hf1 Hf2].
    unfold sleep, emit, bind.
    specialize (IH {| isLoading := isLoading w1; fetchCount := fetchCount w1;
                      trace := trace w1 ++ [EvSleep d] |}).
    destruct (executeRequestWithRetries _ _ _ _ _ _ _ _) as [o w2].
    simpl in IH. destruct IH as [new [Ht2 [Hd [Hl [Hb Hc2]]]]].
    rewrite Ht in Ht2.
    eexists; split; [rewrite Ht2, <- !app_assoc; reflexivity|].
    rewrite !fetches_app, !sleeps_app; simpl;
      rewrite !fetches_app, !sleeps_app, Hf1, Hf2; simpl.
    repeat split.
    + constructor; [reflexivity | exact Hd].
    + rewrite Hl. reflexivity.
    + lia.
    + rewrite Hc2, Hc. lia.
Qed.

Lemma fetches_skeleton l : fetches (skeleton l) = fetches l.
Proof. induction l as [|ev l IH]; [reflexivity|]. destruct ev; simpl; rewrite ?IH; reflexivity. Qed.

Lemma fetches_attempts t u i l n :
  fetches (concat (repeat (attempt_events t u i l) n)) = repeat (u, i) n.
Proof. induction n as [|n IH]; [reflexivity|]. simpl. rewrite IH. reflexivity. Qed.

Lemma skeleton_app l1 l2 : skeleton (l1 ++ l2) = skeleton l1 ++ skeleton l2.
Proof. unfold skeleton. apply filter_app. Qed.

Lemma attempt_parts t u i l rb :
  (rb = [] \/ exists k, rb = [EvReadBody k]) ->
  skeleton (EvSetTimeout t :: EvFetch u i l :: rb ++ [EvClearTimeout]) = attempt_events t u i l /\
  sleeps (EvSetTimeout t :: EvFetch u i l :: rb ++ [EvClearTimeout]) = [].
Proof. intros [-> | [k ->]]; split; reflexivity. Qed.

Ltac close_skeleton Ht Hsk Hsl Hc :=
  exists 1%nat; eexists; split; [exact Ht|];
  rewrite Hsk, Hsl; split; [lia|]; split; [simpl; rewrite ?app_nil_r; reflexivity|];
  split; [reflexivity | rewrite Hc; lia].

(** The retry loop with budget [k] runs [n] attempts, [1 <= n <= k + 1];
    apart from body reads and delays its effects are [n] times the same
    attempt: arm the timer, [fetch] the same URL with the same
    [RequestInit], clear the timer; the [n - 1] delays are all [d]. *)
Lemma executeRequestWithRetries_skeleton client method url data options d k w :
  let '(o, w') := executeRequestWithRetries client method url data options k d w in
  exists n new, trace w' = trace w ++ new /\ (1 <= n <= S k)%nat /\
    skeleton new = concat (repeat (attempt_events (timeout_ms (timeout options))
                                     (buildUrl (baseUrl client) url)
                                     (request_init client method data options)
                                     (isLoading w)) n) /\
    sleeps new = repeat d (n - 1) /\
    fetchCount w' = (fetchCount w + n)%nat.
Proof.
  revert w; induction k as [|k IH]; intro w; cbn [executeRequestWithRetries];
    unfold catchM;
    pose proof (executeRequest_shape client method url data options w) as Hs;
    destruct (executeRequest client method url data options w) as [[a | e] w1];
    destruct Hs as [Hc [Hl [rb [Ht Hrb]]]];
    destruct (attempt_parts (timeout_ms (timeout options)) (buildUrl (baseUrl client) url)
                (request_init client method data options) (isLoading w) rb Hrb) as [Hsk Hsl];
    unfold throw.
  - close_skeleton Ht Hsk Hsl Hc.
  - close_skeleton Ht Hsk Hsl Hc.
  - close_skeleton Ht Hsk Hsl Hc.
  - destruct (shouldRetry e); simpl; [|close_skeleton Ht Hsk Hsl Hc].
    unfold sleep, emit, bind.
    specialize (IH {| isLoading := isLoading w1; fetchCount := fetchCount w1;
                      trace := trace w1 ++ [EvSleep d] |}).
    destruct (executeRequestWithRetries _ _ _ _ _ _ _ _) as [o w2].
    simpl in IH. destruct IH as [n [new [Ht2 [Hn [Hsk2 [Hsl2 Hc2]]]]]].
    rewrite Ht, Hl in *.
    exists (S n).
    exists ((EvSetTimeout (timeout_ms (timeout options))
             :: EvFetch (buildUrl (baseUrl client) url)
                  (request_init client method data options) (isLoading w)
             :: rb ++ [EvClearTimeout]) ++ EvSleep d :: new).
    split; [rewrite Ht2, <- !app_assoc; reflexivity|].
    split; [lia|].
    rewrite skeleton_app, sleeps_app, Hsk, Hsl. simpl.
    rewrite Hsk2, Hsl2. split; [reflexivity|]. split.
    + destruct n as [|n]; [lia|]. simpl. rewrite Nat.sub_0_r. reflexivity.
    + rewrite Hc2, Hc. lia.
Qed.

(** The retry loop seen from [request]. *)
Lemma request_pattern client method url data options w :
  let mo := merged_options client options in
  let '(o, w') := request client method url data options w in
  exists n mid,
    trace w' = trace w ++ EvLoading true :: mid ++ [EvLoading false] /\
    (1 <= n <= S (Z.to_nat (default_prop (retries mo) 1%Z)))%nat /\
    skeleton mid = concat (repeat (attempt_events (timeout_ms (timeout mo))
                                     (buildUrl (baseUrl client) url)
                                     (request_init client method data mo) true) n) /\
    sleeps mid = repeat (default_prop (retryDelay mo) 1000) (n - 1) /\
    fetchCount w' = (fetchCount w + n)%nat.
Proof.
  intro mo. unfold request, bind, setLoading, finallyM. fold mo.
  set (w1 := {| isLoading := true; fetchCount := fetchCount w;
                trace := trace w ++ [EvLoading true] |}).
  pose proof (executeRequestWithRetries_skeleton client method url data mo
                (default_prop (retryDelay mo) 1000)
                (Z.to_nat (default_prop (retries mo) 1)) w1) as Hk.
  destruct (executeRequestWithRetries _ _ _ _ _ _ _ w1) as [o w2].
  destruct Hk as [n [mid [Ht [Hn [Hsk [Hsl Hc]]]]]].
  exists n, mid. simpl. rewrite Ht. subst w1. simpl in *.
  split; [rewrite <- !app_assoc; reflexivity|].
  repeat split; try assumption; lia.
Qed.

(** A call runs [n] attempts, at least one and at most the merged retry
    budget plus one; between raising and lowering the loading flag, its
    effects apart from body reads and delays are [n] times: arm the timer
    with the merged timeout, [fetch] the same request, clear the timer; the
    [n - 1] delays all wait the merged [retryDelay]. *)
Theorem request_attempt_pattern client method url data options w :
  let mo := merged_options client options in
  let '(o, w') := request client method url data options w in
  exists n mid,
    trace w' = trace w ++ EvLoading true :: mid ++ [EvLoading false] /\
    (1 <= n <= S (Z.to_nat (default_prop (retries mo) 1%Z)))%nat /\
    skeleton mid = concat (repeat (attempt_events (timeout_ms (timeout mo))
                                     (buildUrl (baseUrl client) url)
                                     (request_init client method data mo) true) n) /\
    sleeps mid = repeat (default_prop (retryDelay mo) 1000) (n - 1) /\
    fetchCount w' = (fetchCount w + n)%nat.
Proof. exact (request_pattern client method url data options w). Qed.

(** With a merged retry budget of zero or less a call makes exactly one
    attempt and never waits. *)
Theorem request_no_budget_single_attempt client method url data options w :
  (default_prop (retries (merged_options client options)) 1 <= 0)%Z ->
  let '(o, w') := request client method url data options w in
  fetchCount w' = S (fetchCount w) /\
  exists mid,
    trace w' = trace w ++ EvLoading true :: mid ++ [EvLoading false] /\
    length (fetches mid) = 1%nat /\ sleeps mid = [].
Proof.
  intro Hle.
  pose proof (request_pattern client method url data options w) as Hp.
  cbv zeta in Hp.
  destruct (request client method url data options w) as [o w'].
  destruct Hp as [n [mid [Ht [Hn [Hsk [Hsl Hc]]]]]].
  assert (n = 1)%nat by lia. subst n.
  split; [rewrite Hc; lia|].
  exists mid. split; [exact Ht|]. split; [|exact Hsl].
  rewrite <- fetches_skeleton, Hsk. reflexivity.
Qed.

Ltac close_success :=
  eexists _, _; split; [reflexivity|]; simpl; repeat split; assumption.

(** One attempt against an [ok] response whose body decodes. *)
Lemma executeRequest_success client method url data options w r :
  transport (fetchCount w) (buildUrl (baseUrl client) url)
    (request_init client method data options) = FetchResponse r ->
  response_ok r = true ->
  (includes_opt (obj_get (r_headers r) "content-type") "application/json" = true ->
   exists v, json_parse (r_body r) = inl v) ->
  exists resp w', executeRequest client method url data options w = (Ok resp, w') /\
    res_status resp = r_status r /\ res_headers resp = r_headers r /\ ok resp = true /\
    fetchCount w' = S (fetchCount w) /\ isLoading w' = isLoading w.
Proof.
  intros Hr Hok Hj.
  unfold executeRequest, finallyM, catchM, bind, emit, fetch, throw, ret,
    decode_body, response_json, response_text, response_blob. simpl.
  rewrite Hr, Hok. simpl.
  destruct (includes_opt _ "application/json") eqn:Hct.
  - destruct (Hj eq_refl) as [v Hv]. rewrite Hv. simpl.
    close_success.
  - destruct (includes_opt _ "text/"); simpl; close_success.
Qed.

Lemma shouldRetry_5xx r :
  (500 <= r_status r < 600)%Z -> shouldRetry (EHttp (status_error r)) = true.
Proof.
  intros H. unfold shouldRetry, status_error. simpl.
  apply orb_true_intro; right; apply andb_true_intro;
    split; [apply Z.leb_le | apply Z.ltb_lt]; lia.
Qed.

(** Recovery within the budget: if the first [k] attempts get a 5xx
    answer and attempt [k + 1] an [ok] response whose body decodes, with
    [k] at most the budget [n], the loop returns that response after
    exactly [k + 1] fetches. *)
Theorem executeRequestWithRetries_recovers client method url data options d r :
  forall k n w,
  (k <= n)%nat ->
  (forall i, (i < k)%nat ->
     exists r5, transport (fetchCount w + i) (buildUrl (baseUrl client) url)
                  (request_init client method data options) = FetchResponse r5 /\
                (500 <= r_status r5 < 600)%Z) ->
  transport (fetchCount w + k) (buildUrl (baseUrl client) url)
    (request_init client method data options) = FetchResponse r ->
  response_ok r = true ->
  (includes_opt (obj_get (r_headers r) "content-type") "application/json" = true ->
   exists v, json_parse (r_body r) = inl v) ->
  let '(o, w') := executeRequestWithRetries client method url data options n d w in
  (exists resp, o = Ok resp /\ res_status resp = r_status r /\
                res_headers resp = r_headers r) /\
  fetchCount w' = (fetchCount w + S k)%nat.
Proof.
  intros k. induction k as [|k IH]; intros n w Hkn H5 Hr Hok Hj.
  - rewrite Nat.add_0_r in Hr.
    destruct (executeRequest_success client method url data options w r Hr Hok Hj)
      as [resp [w' [He [Hs [Hh [_ [Hc _]]]]]]].
    destruct n as [|n]; cbn [executeRequestWithRetries]; unfold catchM; rewrite He;
      (split; [exists resp; split; [reflexivity | split; assumption] | rewrite Hc; lia]).
  - destruct n as [|n]; [lia|].
    destruct (H5 0%nat ltac:(lia)) as [r5 [Hr5 Hst]].
    rewrite Nat.add_0_r in Hr5.
    assert (Hnok : response_ok r5 = false).
    { unfold response_ok. apply andb_false_intro2, Z.leb_gt. lia. }
    cbn [executeRequestWithRetries]; unfold catchM.
    rewrite (executeRequest_not_ok client method url data options w r5 Hr5 Hnok).
    rewrite (shouldRetry_5xx r5 Hst). simpl. unfold sleep, emit, bind. simpl.
    set (w1 := {| isLoading := isLoading w; fetchCount := (fetchCount w + 1)%nat;
                  trace := _ |}).
    assert (Hw1 : fetchCount w1 = S (fetchCount w)) by (simpl; lia).
    specialize (IH n w1 ltac:(lia)).
    rewrite Hw1 in IH.
    assert (H5' : forall i, (i < k)%nat ->
      exists r5, transport (S (fetchCount w) + i) (buildUrl (baseUrl client) url)
                   (request_init client method data options) = FetchResponse r5 /\
                 (500 <= r_status r5 < 600)%Z).
    { intros i Hi. replace (S (fetchCount w) + i)%nat with (fetchCount w + S i)%nat by lia.
      apply H5. lia. }
    replace (S (fetchCount w) + k)%nat with (fetchCount w + S k)%nat in IH by lia.
    specialize (IH H5' Hr Hok Hj).
    destruct (executeRequestWithRetries _ _ _ _ _ _ _ _) as [o w2].
    destruct IH as [Ho Hc]. split; [exact Ho|]. rewrite Hc. lia.
Qed.

Lemma executeRequestWithRetries_throws_http client method url data options d :
  forall k w e w1,
  executeRequestWithRetries client method url data options k d w = (Throw e, w1) ->
  exists h, e = EHttp h.
Proof.
  intro k. induction k as [|k IH]; intros w e w1;
    cbn [executeRequestWithRetries]; unfold catchM;
    destruct (executeRequest client method url data options w) as [[a | e0] w0] eqn:He;
    try discriminate; simpl.
  - intro H. injection H as <- _. eapply executeRequest_throws_http; exact He.
  - destruct (shouldRetry e0); simpl.
    + unfold sleep, emit, bind. apply IH.
    + intro H. injection H as <- _. eapply executeRequest_throws_http; exact He.
Qed.

Lemma request_throws_http client method url data options w e :
  fst (request client method url data options w) = Throw e ->
  exists h, e = EHttp h.
Proof.
  unfold request, bind, setLoading, finallyM. simpl.
  destruct (executeRequestWithRetries _ _ _ _ _ _ _ _) as [[a | e0] w1] eqn:He;
    simpl; intro H; [discriminate|].
  injection H as <-. eapply executeRequestWithRetries_throws_http; exact He.
Qed.

(** A call never rejects with anything but an [HttpError]: transport
    errors, timeouts, error statuses and decoding errors all reach the
    caller as [HttpError]. *)
Theorem request_throws_only_http client method url data options w e :
  fst (request client method url data options w) = Throw e ->
  exists h, e = EHttp h.
Proof. exact (request_throws_http client method url data options w e). Qed.

(** [get] and [delete] never send a body: every [fetch] of such a call,
    and there is at least one, carries its method, the built URL and no
    body, whatever the options. *)
Theorem get_delete_send_no_body client url options w :
  (let '(o, w') := get client url options w in
   exists mid, trace w' = trace w ++ EvLoading true :: mid ++ [EvLoading false] /\
     fetches mid <> [] /\
     Forall (fun f => fst f = buildUrl (baseUrl client) url /\
                      method (snd f) = "GET" /\ body (snd f) = None) (fetches mid)) /\
  (let '(o, w') := delete client url options w in
   exists mid, trace w' = trace w ++ EvLoading true :: mid ++ [EvLoading false] /\
     fetches mid <> [] /\
     Forall (fun f => fst f = buildUrl (baseUrl client) url /\
                      method (snd f) = "DELETE" /\ body (snd f) = None) (fetches mid)).
Proof.
  unfold get, delete. split;
    [pose proof (request_pattern client "GET" url JUndefined options w) as Hp;
     destruct (request client "GET" url JUndefined options w) as [o w']
    |pose proof (request_pattern client "DELETE" url JUndefined options w) as Hp;
     destruct (request client "DELETE" url JUndefined options w) as [o w']];
    cbv zeta in Hp; destruct Hp as [n [mid [Ht [Hn [Hsk _]]]]];
    exists mid; (split; [exact Ht|]);
    rewrite <- fetches_skeleton, Hsk, fetches_attempts;
    (split; [destruct n; [lia | discriminate]|]);
    apply Forall_forall; intros f Hf; apply repeat_spec in Hf; subst f;
    repeat split.
Qed.

(* ------------------------------------------------------------------ *)
(** ** Properties of [DataService] *)

(** The shape shared by the methods, run once. *)
Lemma guarded_run {A} (body : DM A) msg s :
  guarded body msg s =
  let '(o, s2) := body {| ds_items := ds_items s; ds_loading := true; ds_world := ds_world s |} in
  (match o with
   | Ok a => Ok a
   | Throw ENonError => Throw (EError msg)
   | Throw e => Throw e
   end,
   {| ds_items := ds_items s2; ds_loading := false; ds_world := ds_world s2 |}).
Proof.
  unfold guarded, dbind, setDsLoading, dfinally, dcatch, handleError, dthrow. simpl.
  destruct (body _) as [[a | e] s2]; [reflexivity|].
  destruct e; reflexivity.
Qed.

Lemma lift_run {A} (m : M A) s :
  lift m s = (fst (m (ds_world s)),
              {| ds_items := ds_items s; ds_loading := ds_loading s;
                 ds_world := snd (m (ds_world s)) |}).
Proof. unfold lift. destruct (m (ds_world s)); reflexivity. Qed.

Ltac run_ds :=
  repeat (rewrite ?guarded_run, ?lift_run; cbn [ds_items ds_world ds_loading]).

Lemma create_run svc item s :
  let '(o, s') := create svc item s in
  ds_loading s' = false /\
  ds_world s' = snd (post (ds_client svc) (apiPath svc) item no_options (ds_world s)) /\
  match fst (post (ds_client svc) (apiPath svc) item no_options (ds_world s)) with
  | Throw e => o = Throw e /\ ds_items s' = ds_items s
  | Ok resp =>
      match spread_items (ds_items s) with
      | Some l => o = Ok (data resp) /\ ds_items s' = IArr (l ++ [any_of_data (data resp)])
      | None => o = Throw (type_error "currentItems is not iterable") /\ ds_items s' = ds_items s
      end
  end.
Proof.
  unfold create. rewrite guarded_run. unfold dbind at 1. rewrite lift_run. cbn [ds_world ds_items].
  unfold post.
  destruct (request (ds_client svc) "POST" (apiPath svc) item no_options (ds_world s))
    as [[resp | e] w'] eqn:Hr; cbn [fst snd].
  - unfold dbind, getItems, setItems, dret, dthrow; cbn.
    destruct (spread_items (ds_items s)); cbn; repeat split.
  - destruct (request_throws_http (ds_client svc) "POST" (apiPath svc) item no_options
                (ds_world s) e ltac:(rewrite Hr; reflexivity)) as [h ->].
    cbn. repeat split.
Qed.

Lemma update_run svc id item s :
  let '(o, s') := update svc id item s in
  ds_loading s' = false /\
  ds_world s' = snd (put (ds_client svc) (apiPath svc ++ "/" ++ id) item no_options (ds_world s)) /\
  match fst (put (ds_client svc) (apiPath svc ++ "/" ++ id) item no_options (ds_world s)) with
  | Throw e => o = Throw e /\ ds_items s' = ds_items s
  | Ok resp =>
      match array_items (ds_items s) with
      | None => o = Throw (type_error "currentItems.map is not a function") /\
                ds_items s' = ds_items s
      | Some l =>
          match map_update l id (any_of_data (data resp)) with
          | None => o = Throw (type_error (id_read_error l)) /\
                    ds_items s' = ds_items s
          | Some l' => o = Ok (data resp) /\ ds_items s' = IArr l'
          end
      end
  end.
Proof.
  unfold update. rewrite guarded_run. unfold dbind at 1. rewrite lift_run. cbn [ds_world ds_items].
  unfold put.
  destruct (request (ds_client svc) "PUT" (apiPath svc ++ "/" ++ id) item no_options (ds_world s))
    as [[resp | e] w'] eqn:Hr; cbn [fst snd].
  - unfold dbind, getItems, setItems, dret, dthrow; cbn.
    destruct (array_items (ds_items s)); cbn; [|repeat split].
    destruct (map_update _ _ _); cbn; repeat split.
  - destruct (request_throws_http (ds_client svc) "PUT" (apiPath svc ++ "/" ++ id) item
                no_options (ds_world s) e ltac:(rewrite Hr; reflexivity)) as [h ->].
    cbn. repeat split.
Qed.

Lemma delete_run svc id s :
  let '(o, s') := ds_delete svc id s in
  ds_loading s' = false /\
  ds_world s' = snd (delete (ds_client svc) (apiPath svc ++ "/" ++ id) no_options (ds_world s)) /\
  match fst (delete (ds_client svc) (apiPath svc ++ "/" ++ id) no_options (ds_world s)) with
  | Throw e => o = Throw e /\ ds_items s' = ds_items s
  | Ok _ =>
      match array_items (ds_items s) with
      | None => o = Throw (type_error "currentItems.filter is not a function") /\
                ds_items s' = ds_items s
      | Some l =>
          match filter_delete l id with
          | None => o = Throw (type_error (id_read_error l)) /\
                    ds_items s' = ds_items s
          | Some l' => o = Ok tt /\ ds_items s' = IArr l'
          end
      end
  end.
Proof.
  unfold ds_delete. rewrite guarded_run. unfold dbind at 1. rewrite lift_run. cbn [ds_world ds_items].
  unfold delete.
  destruct (request (ds_client svc) "DELETE" (apiPath svc ++ "/" ++ id) JUndefined no_options
              (ds_world s)) as [[resp | e] w'] eqn:Hr; cbn [fst snd].
  - unfold dbind, getItems, setItems, dret, dthrow; cbn.
    destruct (array_items (ds_items s)); cbn; [|repeat split].
    destruct (filter_delete _ _); cbn; repeat split.
  - destruct (request_throws_http (ds_client svc) "DELETE" (apiPath svc ++ "/" ++ id) JUndefined
                no_options (ds_world s) e ltac:(rewrite Hr; reflexivity)) as [h ->].
    cbn. repeat split.
Qed.

Lemma getAll_run svc params s :
  let '(o, s') := getAll svc params s in
  ds_loading s' = false /\ ds_items s' = ds_items s /\
  ds_world s' = snd (get (ds_client svc) (getAll_url (apiPath svc) params) no_options (ds_world s)) /\
  match fst (get (ds_client svc) (getAll_url (apiPath svc) params) no_options (ds_world s)) with
  | Throw e => o = Throw e /\ exists h, e = EHttp h
  | Ok resp => o = Ok (data resp)
  end.
Proof.
  unfold getAll. rewrite guarded_run. unfold dbind at 1. rewrite lift_run. cbn [ds_world ds_items].
  unfold get.
  destruct (request (ds_client svc) "GET" (getAll_url (apiPath svc) params) JUndefined no_options
              (ds_world s)) as [[resp | e] w'] eqn:Hr; cbn [fst snd].
  - unfold dret; cbn. repeat split.
  - destruct (request_throws_http (ds_client svc) "GET" (getAll_url (apiPath svc) params)
                JUndefined no_options (ds_world s) e ltac:(rewrite Hr; reflexivity)) as [h ->].
    cbn. repeat split. eauto.
Qed.

Lemma getById_run svc id s :
  let '(o, s') := getById svc id s in
  ds_loading s' = false /\ ds_items s' = ds_items s /\
  ds_world s' = snd (get (ds_client svc) (apiPath svc ++ "/" ++ id) no_options (ds_world s)) /\
  match fst (get (ds_client svc) (apiPath svc ++ "/" ++ id) no_options (ds_world s)) with
  | Throw e => o = Throw e /\ exists h, e = EHttp h
  | Ok resp => o = Ok (data resp)
  end.
Proof.
  unfold getById. rewrite guarded_run. unfold dbind at 1. rewrite lift_run. cbn [ds_world ds_items].
  unfold get.
  destruct (request (ds_client svc) "GET" (apiPath svc ++ "/" ++ id) JUndefined no_options
              (ds_world s)) as [[resp | e] w'] eqn:Hr; cbn [fst snd].
  - unfold dret; cbn. repeat split.
  - destruct (request_throws_http (ds_client svc) "GET" (apiPath svc ++ "/" ++ id)
                JUndefined no_options (ds_world s) e ltac:(rewrite Hr; reflexivity)) as [h ->].
    cbn. repeat split. eauto.
Qed.

Lemma map_update_ok l id u :
  Forall (fun x => get_id x <> None) l ->
  map_update l id u = Some (map (fun x => if has_id x id then u else x) l).
Proof.
  induction l as [|x l IH]; intro Hl; [reflexivity|].
  inversion Hl as [|? ? Hx Hl']; subst.
  simpl. unfold has_id. destruct (get_id x) as [v|]; [|contradiction].
  rewrite IH by exact Hl'. reflexivity.
Qed.

Lemma filter_delete_ok l id :
  Forall (fun x => get_id x <> None) l ->
  filter_delete l id = Some (filter (fun x => negb (has_id x id)) l).
Proof.
  induction l as [|x l IH]; intro Hl; [reflexivity|].
  inversion Hl as [|? ? Hx Hl']; subst.
  simpl. unfold has_id. destruct (get_id x) as [v|]; [|contradiction].
  rewrite IH by exact Hl'. destruct (strict_eq_str v id); reflexivity.
Qed.

(** [create] on an array of items appends the item the server answered
    with at the end, keeping the others in order, and returns it. *)
Theorem create_appends svc item s l resp :
  ds_items s = IArr l ->
  fst (post (ds_client svc) (apiPath svc) item no_options (ds_world s)) = Ok resp ->
  let '(o, s') := create svc item s in
  o = Ok (data resp) /\ ds_items s' = IArr (l ++ [any_of_data (data resp)]) /\
  ds_loading s' = false.
Proof.
  intros Hl Hp.
  pose proof (create_run svc item s) as Hc.
  destruct (create svc item s) as [o s'].
  destruct Hc as [Hld [_ Hc]]. rewrite Hp, Hl in Hc. cbn in Hc.
  destruct Hc as [Ho Hi]. auto.
Qed.

(** [update] on an array of items whose ids can all be read: the items
    keep their number and order, those with [id] are replaced by the item
    the server answered with, the others stay; in particular, when no item
    has [id], the items do not change (the updated item is not added). *)
Theorem update_replaces_matching svc id item s l resp :
  ds_items s = IArr l ->
  Forall (fun x => get_id x <> None) l ->
  fst (put (ds_client svc) (apiPath svc ++ "/" ++ id) item no_options (ds_world s)) = Ok resp ->
  let '(o, s') := update svc id item s in
  o = Ok (data resp) /\ ds_loading s' = false /\
  exists l', ds_items s' = IArr l' /\ length l' = length l /\
    (forall i x, nth_error l i = Some x ->
       nth_error l' i = Some (if has_id x id then any_of_data (data resp) else x)) /\
    (Forall (fun x => has_id x id = false) l -> l' = l).
Proof.
  intros Hl Hn Hp.
  pose proof (update_run svc id item s) as Hc.
  destruct (update svc id item s) as [o s'].
  destruct Hc as [Hld [_ Hc]]. rewrite Hp, Hl in Hc. cbn [array_items] in Hc.
  rewrite map_update_ok in Hc by exact Hn.
  destruct Hc as [Ho Hi].
  split; [exact Ho|]. split; [exact Hld|].
  eexists; split; [exact Hi|]. split; [apply length_map|]. split.
  - intros i x Hx. rewrite nth_error_map, Hx. reflexivity.
  - intro Hall. clear -Hall. induction Hall as [|x l Hx _ IH]; [reflexivity|].
    simpl. rewrite Hx, IH. reflexivity.
Qed.

(** [delete] on an array of items whose ids can all be read: the items
    with [id] are removed, the others stay in order; when no item has
    [id], the items do not change. *)
Theorem delete_removes_matching svc id s l resp :
  ds_items s = IArr l ->
  Forall (fun x => get_id x <> None) l ->
  fst (delete (ds_client svc) (apiPath svc ++ "/" ++ id) no_options (ds_world s)) = Ok resp ->
  let '(o, s') := ds_delete svc id s in
  o = Ok tt /\ ds_loading s' = false /\
  exists l', ds_items s' = IArr l' /\
    Forall (fun x => has_id x id = false) l' /\
    (forall x, In x l' <-> In x l /\ has_id x id = false) /\
    (Forall (fun x => has_id x id = false) l -> l' = l).
Proof.
  intros Hl Hn Hp.
  pose proof (delete_run svc id s) as Hc.
  destruct (ds_delete svc id s) as [o s'].
  destruct Hc as [Hld [_ Hc]]. rewrite Hp, Hl in Hc. cbn [array_items] in Hc.
  rewrite filter_delete_ok in Hc by exact Hn.
  destruct Hc as [Ho Hi].
  split; [exact Ho|]. split; [exact Hld|].
  eexists; split; [exact Hi|]. split; [|split].
  - apply Forall_forall. intros x Hx. apply filter_In in Hx as [_ Hx].
    apply negb_true_iff in Hx. exact Hx.
  - intro x. rewrite filter_In, negb_true_iff. tauto.
  - intro Hall. clear -Hall. induction Hall as [|x l Hx _ IH]; [reflexivity|].
    simpl. rewrite Hx, IH. reflexivity.
Qed.

(** A rejected [create], [update] or [delete] leaves the items as they
    were, and rejects either with the client's own rejection, or, after
    the request succeeded, with a [TypeError] from the local update. *)
Theorem mutation_rejection_keeps_items svc s e :
  (forall item, fst (create svc item s) = Throw e ->
     ds_items (snd (create svc item s)) = ds_items s /\
     (fst (post (ds_client svc) (apiPath svc) item no_options (ds_world s)) = Throw e \/
      exists resp msg, fst (post (ds_client svc) (apiPath svc) item no_options (ds_world s)) = Ok resp /\
                       e = type_error msg)) /\
  (forall id item, fst (update svc id item s) = Throw e ->
     ds_items (snd (update svc id item s)) = ds_items s /\
     (fst (put (ds_client svc) (apiPath svc ++ "/" ++ id) item no_options (ds_world s)) = Throw e \/
      exists resp msg, fst (put (ds_client svc) (apiPath svc ++ "/" ++ id) item no_options
                              (ds_world s)) = Ok resp /\ e = type_error msg)) /\
  (forall id, fst (ds_delete svc id s) = Throw e ->
     ds_items (snd (ds_delete svc id s)) = ds_items s /\
     (fst (delete (ds_client svc) (apiPath svc ++ "/" ++ id) no_options (ds_world s)) = Throw e \/
      exists resp msg, fst (delete (ds_client svc) (apiPath svc ++ "/" ++ id) no_options
                              (ds_world s)) = Ok resp /\ e = type_error msg)).
Proof.
  split; [|split].
  - intros item.
    pose proof (create_run svc item s) as Hc.
    destruct (create svc item s) as [o s']. cbn [fst snd]. intros ->.
    destruct Hc as [_ [_ Hc]].
    destruct (fst (post _ _ _ _ _)) as [resp | e0].
    + destruct (spread_items (ds_items s)); destruct Hc as [Ho Hi]; [discriminate|].
      injection Ho as Ho. split; [exact Hi|]. right; do 2 eexists; split; [reflexivity | exact Ho].
    + destruct Hc as [Ho Hi]. injection Ho as <-. split; [exact Hi | left; reflexivity].
  - intros id item.
    pose proof (update_run svc id item s) as Hc.
    destruct (update svc id item s) as [o s']. cbn [fst snd]. intros ->.
    destruct Hc as [_ [_ Hc]].
    destruct (fst (put _ _ _ _ _)) as [resp | e0].
    + destruct (array_items (ds_items s)) as [l|].
      * destruct (map_update _ _ _); destruct Hc as [Ho Hi]; [discriminate|].
        injection Ho as Ho. split; [exact Hi|]. right; do 2 eexists; split; [reflexivity | exact Ho].
      * destruct Hc as [Ho Hi]. injection Ho as Ho. split; [exact Hi|]. right; do 2 eexists; split; [reflexivity | exact Ho].
    + destruct Hc as [Ho Hi]. injection Ho as <-. split; [exact Hi | left; reflexivity].
  - intros id.
    pose proof (delete_run svc id s) as Hc.
    destruct (ds_delete svc id s) as [o s']. cbn [fst snd]. intros ->.
    destruct Hc as [_ [_ Hc]].
    destruct (fst (delete _ _ _ _)) as [resp | e0].
    + destruct (array_items (ds_items s)) as [l|].
      * destruct (filter_delete _ _); destruct Hc as [Ho Hi]; [discriminate|].
        injection Ho as Ho. split; [exact Hi|]. right; do 2 eexists; split; [reflexivity | exact Ho].
      * destruct Hc as [Ho Hi]. injection Ho as Ho. split; [exact Hi|]. right; do 2 eexists; split; [reflexivity | exact Ho].
    + destruct Hc as [Ho Hi]. injection Ho as <-. split; [exact Hi | left; reflexivity].
Qed.

(** When the items hold a JSON object rather than an array (what
    [initialize] stores when the list endpoint answers with an object),
    [create], [update] and [delete] still send their request, and once it
    succeeds they reject with a [TypeError], the items left as they were. *)
Theorem mutation_on_object_items_fails_after_request svc s fs :
  ds_items s = IOther (AJson (JObj fs)) ->
  (forall item resp,
     fst (post (ds_client svc) (apiPath svc) item no_options (ds_world s)) = Ok resp ->
     let '(o, s') := create svc item s in
     (exists msg, o = Throw (type_error msg)) /\ ds_items s' = ds_items s /\
     ds_world s' = snd (post (ds_client svc) (apiPath svc) item no_options (ds_world s))) /\
  (forall id item resp,
     fst (put (ds_client svc) (apiPath svc ++ "/" ++ id) item no_options (ds_world s)) = Ok resp ->
     let '(o, s') := update svc id item s in
     (exists msg, o = Throw (type_error msg)) /\ ds_items s' = ds_items s /\
     ds_world s' = snd (put (ds_client svc) (apiPath svc ++ "/" ++ id) item no_options (ds_world s))) /\
  (forall id resp,
     fst (delete (ds_client svc) (apiPath svc ++ "/" ++ id) no_options (ds_world s)) = Ok resp ->
     let '(o, s') := ds_delete svc id s in
     (exists msg, o = Throw (type_error msg)) /\ ds_items s' = ds_items s /\
     ds_world s' = snd (delete (ds_client svc) (apiPath svc ++ "/" ++ id) no_options (ds_world s))).
Proof.
  intros Hl. split; [|split].
  - intros item resp Hp.
    pose proof (create_run svc item s) as Hc.
    destruct (create svc item s) as [o s'].
    destruct Hc as [_ [Hw Hc]]. rewrite Hp, Hl in Hc. cbn in Hc.
    destruct Hc as [Ho Hi]. rewrite Hl. eauto.
  - intros id item resp Hp.
    pose proof (update_run svc id item s) as Hc.
    destruct (update svc id item s) as [o s'].
    destruct Hc as [_ [Hw Hc]]. rewrite Hp, Hl in Hc. cbn in Hc.
    destruct Hc as [Ho Hi]. rewrite Hl. eauto.
  - intros id resp Hp.
    pose proof (delete_run svc id s) as Hc.
    destruct (ds_delete svc id s) as [o s'].
    destruct Hc as [_ [Hw Hc]]. rewrite Hp, Hl in Hc. cbn in Hc.
    destruct Hc as [Ho Hi]. rewrite Hl. eauto.
Qed.

(** [initialize] never rejects: the items become what the list endpoint
    answered with, or an empty array when the request failed. *)
Theorem initialize_never_rejects svc s :
  let '(o, s') := ds_initialize svc s in
  o = Ok tt /\ ds_loading s' = false /\
  ds_world s' = snd (get (ds_client svc) (apiPath svc) no_options (ds_world s)) /\
  match fst (get (ds_client svc) (apiPath svc) no_options (ds_world s)) with
  | Ok resp => ds_items s' = items_of_data (data resp)
  | Throw _ => ds_items s' = IArr []
  end.
Proof.
  pose proof (getAll_run svc None s) as Hg.
  unfold ds_initialize, dcatch, dbind, setItems.
  destruct (getAll svc None s) as [o1 s1].
  destruct Hg as [Hld [_ [Hw Hg]]]. cbn [getAll_url] in Hw, Hg.
  destruct (fst (get _ _ _ _)) as [resp | e].
  - subst o1. cbn. auto.
  - destruct Hg as [-> _]. cbn. auto.
Qed.

(** [getAll] and [getById] reject only with the client's [HttpError]; the
    fallback [Error] of [handleError] with their default messages is never
    raised. Neither touches the items. *)
Theorem reads_reject_only_http svc s :
  (forall params e, fst (getAll svc params s) = Throw e ->
     (exists h, e = EHttp h) /\ ds_items (snd (getAll svc params s)) = ds_items s) /\
  (forall id e, fst (getById svc id s) = Throw e ->
     (exists h, e = EHttp h) /\ ds_items (snd (getById svc id s)) = ds_items s).
Proof.
  split.
  - intros params e.
    pose proof (getAll_run svc params s) as Hg.
    destruct (getAll svc params s) as [o s']. cbn [fst snd]. intros ->.
    destruct Hg as [_ [Hi [_ Hg]]].
    destruct (fst (get _ _ _ _)); [discriminate|].
    destruct Hg as [Ho Hh]. injection Ho as <-. auto.
  - intros id e.
    pose proof (getById_run svc id s) as Hg.
    destruct (getById svc id s) as [o s']. cbn [fst snd]. intros ->.
    destruct Hg as [_ [Hi [_ Hg]]].
    destruct (fst (get _ _ _ _)); [discriminate|].
    destruct Hg as [Ho Hh]. injection Ho as <-. auto.
Qed.

Lemma initialize_loading svc s : ds_loading (snd (ds_initialize svc s)) = false.
Proof.
  pose proof (getAll_run svc None s) as Hg.
  unfold ds_initialize, dcatch, dbind, setItems.
  destruct (getAll svc None s) as [[a | e] s1]; apply Hg.
Qed.

(** Whatever happens, every method of the service leaves its [isLoading]
    observable at [false]. *)
Theorem service_loading_reset svc s :
  (forall params, ds_loading (snd (getAll svc params s)) = false) /\
  (forall id, ds_loading (snd (getById svc id s)) = false) /\
  (forall item, ds_loading (snd (create svc item s)) = false) /\
  (forall id item, ds_loading (snd (update svc id item s)) = false) /\
  (forall id, ds_loading (snd (ds_delete svc id s)) = false) /\
  ds_loading (snd (ds_initialize svc s)) = false.
Proof.
  repeat split.
  - intro params. pose proof (getAll_run svc params s) as H.
    destruct (getAll svc params s). apply H.
  - intro id. pose proof (getById_run svc id s) as H.
    destruct (getById svc id s). apply H.
  - intro item. pose proof (create_run svc item s) as H.
    destruct (create svc item s). apply H.
  - intros id item. pose proof (update_run svc id item s) as H.
    destruct (update svc id item s). apply H.
  - intro id. pose proof (delete_run svc id s) as H.
    destruct (ds_delete svc id s). apply H.
  - pose proof (initialize_loading svc s) as H. exact H.
Qed.

(* ------------------------------------------------------------------ *)
(** ** The query string of [getAll] *)

Lemma str_app_assoc (a b c : string) : ((a ++ b) ++ c)%string = (a ++ (b ++ c))%string.
Proof. induction a as [|x a IH]; simpl; [reflexivity | rewrite IH; reflexivity]. Qed.

Lemma str_app_nil (a : string) : (a ++ "")%string = a.
Proof. induction a as [|x a IH]; simpl; [reflexivity | rewrite IH; reflexivity]. Qed.

Lemma urlencode_byte_decode c t :
  percent_decode (plus_to_space (urlencode_byte c ++ t)) =
  String c (percent_decode (plus_to_space t)).
Proof. destruct c as [[] [] [] [] [] [] [] []]; reflexivity. Qed.

Lemma form_decode_encode s : form_decode (form_urlencode s) = s.
Proof.
  unfold form_decode.
  assert (H : forall t, percent_decode (plus_to_space (form_urlencode s ++ t)) =
                        (s ++ percent_decode (plus_to_space t))%string).
  { induction s as [|c s IH]; intro t; [reflexivity|].
    simpl. rewrite str_app_assoc, urlencode_byte_decode, IH. reflexivity. }
  specialize (H ""). rewrite str_app_nil in H. rewrite H. apply str_app_nil.
Qed.

Lemma urlencode_byte_no_sep c :
  has_char "&" (urlencode_byte c) = false /\ has_char "=" (urlencode_byte c) = false /\
  urlencode_byte c <> "".
Proof. destruct c as [[] [] [] [] [] [] [] []]; (split; [reflexivity | split; [reflexivity | discriminate]]). Qed.

Lemma has_char_app c a b : has_char c (a ++ b) = has_char c a || has_char c b.
Proof. induction a as [|x a IH]; simpl; [reflexivity | rewrite IH, orb_assoc; reflexivity]. Qed.

Lemma form_urlencode_no_sep s :
  has_char "&" (form_urlencode s) = false /\ has_char "=" (form_urlencode s) = false.
Proof.
  induction s as [|c s [IH1 IH2]]; [split; reflexivity|]. simpl.
  destruct (urlencode_byte_no_sep c) as [H1 [H2 _]].
  rewrite !has_char_app, H1, H2, IH1, IH2. split; reflexivity.
Qed.

Lemma split_on_cons sep t : exists h r, split_on sep t = h :: r.
Proof.
  induction t as [|c t [h [r IH]]]; simpl; [eauto|].
  rewrite IH. destruct (Ascii.eqb c sep); eauto.
Qed.

Lemma split_on_app sep a t :
  has_char sep a = false -> split_on sep (a ++ t) = prepend a (split_on sep t).
Proof.
  destruct (split_on_cons sep t) as [h [r Ht]].
  induction a as [|c a IH]; intro H.
  - simpl. rewrite Ht. reflexivity.
  - simpl in H. apply orb_false_iff in H as [Hc Ha].
    simpl. rewrite IH by exact Ha. rewrite Ascii.eqb_sym, Hc, Ht. reflexivity.
Qed.

Lemma break_at_app sep a t :
  has_char sep a = false -> break_at sep (a ++ String sep t) = (a, Some t).
Proof.
  induction a as [|c a IH]; intro H.
  - simpl. rewrite Ascii.eqb_refl. reflexivity.
  - simpl in H. apply orb_false_iff in H as [Hc Ha].
    simpl. rewrite Ascii.eqb_sym, Hc, IH by exact Ha. reflexivity.
Qed.

Lemma split_on_no_sep sep a : has_char sep a = false -> split_on sep a = [a].
Proof.
  intro H. rewrite <- (str_app_nil a), split_on_app by exact H.
  simpl. rewrite str_app_nil. reflexivity.
Qed.

Lemma pair_enc_parse kv :
  has_char "&" (pair_enc kv) = false /\ String.eqb (pair_enc kv) "" = false /\
  (let (n, v) := break_at "=" (pair_enc kv) in
   (form_decode n, match v with Some v => form_decode v | None => EmptyString end)) = kv.
Proof.
  destruct kv as [k v]. unfold pair_enc; simpl.
  destruct (form_urlencode_no_sep k) as [Hk1 Hk2].
  destruct (form_urlencode_no_sep v) as [Hv1 Hv2].
  split; [rewrite has_char_app; simpl; rewrite Hk1, Hv1; reflexivity|].
  split; [destruct (form_urlencode k); reflexivity|].
  rewrite break_at_app by exact Hk2. rewrite !form_decode_encode. reflexivity.
Qed.

Lemma form_parse_serialize l : form_parse (form_serialize l) = l.
Proof.
  unfold form_serialize. fold pair_enc.
  induction l as [|kv l IH]; [reflexivity|].
  destruct (pair_enc_parse kv) as [Ha [Hne Hp]].
  destruct l as [|kv' l].
  - simpl. unfold form_parse. rewrite split_on_no_sep by exact Ha. simpl.
    rewrite Hne. simpl. rewrite Hp. reflexivity.
  - change (String.concat "&" (map pair_enc (kv :: kv' :: l)))
      with (pair_enc kv ++ String "&" (String.concat "&" (map pair_enc (kv' :: l))))%string.
    unfold form_parse in *.
    rewrite split_on_app by exact Ha. simpl. simpl.
    rewrite str_app_nil, Hne. cbn [negb filter map]. rewrite Hp. f_equal. exact IH.
Qed.

Lemma getAll_fetches svc params s :
  let '(o, s') := getAll svc params s in
  exists mid, trace (ds_world s') = trace (ds_world s) ++ EvLoading true :: mid ++ [EvLoading false] /\
    fetches mid <> [] /\
    Forall (fun f => fst f = buildUrl (baseUrl (ds_client svc)) (getAll_url (apiPath svc) params))
      (fetches mid).
Proof.
  pose proof (getAll_run svc params s) as Hg.
  pose proof (request_pattern (ds_client svc) "GET" (getAll_url (apiPath svc) params) JUndefined
                no_options (ds_world s)) as Hp.
  destruct (getAll svc params s) as [o s'].
  destruct Hg as [_ [_ [Hw _]]]. unfold get in Hw. rewrite Hw. cbv zeta in Hp.
  destruct (request _ _ _ _ _ _) as [o1 w1]. cbn [snd].
  destruct Hp as [n [mid [Ht [Hn [Hsk _]]]]].
  exists mid. split; [exact Ht|].
  rewrite <- fetches_skeleton, Hsk, fetches_attempts.
  split; [destruct n; [lia | discriminate]|].
  apply Forall_forall. intros f Hf. apply repeat_spec in Hf. subst f. reflexivity.
Qed.

(** With non-empty [params], every [fetch] of [getAll] goes to the API
    path followed by [?] and a query string from which the
    [application/x-www-form-urlencoded] parser recovers exactly the
    pairs of [params], in order. *)
Theorem getAll_query_round_trip svc p s :
  p <> [] ->
  exists q, form_parse q = p /\
  let '(o, s') := getAll svc (Some p) s in
  exists mid, trace (ds_world s') = trace (ds_world s) ++ EvLoading true :: mid ++ [EvLoading false] /\
    fetches mid <> [] /\
    Forall (fun f => fst f = buildUrl (baseUrl (ds_client svc)) (apiPath svc ++ "?" ++ q))
      (fetches mid).
Proof.
  intro Hp. exists (form_serialize p). split; [apply form_parse_serialize|].
  pose proof (getAll_fetches svc (Some p) s) as Hf.
  unfold getAll_url in Hf.
  destruct p as [|kv p]; [contradiction|]. cbn [List.length Nat.eqb negb] in Hf.
  exact Hf.
Qed.

(** Without [params], or with an empty object, [getAll] requests the API
    path itself, with no [?]. *)
Theorem getAll_no_params_no_query svc params s :
  params = None \/ params = Some [] ->
  let '(o, s') := getAll svc params s in
  exists mid, trace (ds_world s') = trace (ds_world s) ++ EvLoading true :: mid ++ [EvLoading false] /\
    fetches mid <> [] /\
    Forall (fun f => fst f = buildUrl (baseUrl (ds_client svc)) (apiPath svc)) (fetches mid).
Proof.
  intros Hp.
  pose proof (getAll_fetches svc params s) as Hf.
  destruct Hp as [-> | ->]; exact Hf.
Qed.

(* ------------------------------------------------------------------ *)
(** ** Properties of [ServiceRegistry] *)

Lemma map_get_set_same m k v : map_get (map_set m k v) k = Some v.
Proof.
  induction m as [|[k' v'] m IH]; simpl; [rewrite String.eqb_refl; reflexivity|].
  destruct (String.eqb k k') eqn:E; simpl; rewrite ?String.eqb_refl; [reflexivity|].
  rewrite E. exact IH.
Qed.

Lemma map_get_set_other m k v k' :
  k' <> k -> map_get (map_set m k v) k' = map_get m k'.
Proof.
  intro Hne. induction m as [|[k0 v0] m IH]; simpl.
  - apply String.eqb_neq in Hne. rewrite Hne. reflexivity.
  - destruct (String.eqb k k0) eqn:E; simpl.
    + apply String.eqb_eq in E. subst k0.
      apply String.eqb_neq in Hne. rewrite Hne. reflexivity.
    + destruct (String.eqb k' k0); [reflexivity | exact IH].
Qed.

Lemma map_get_set_keeps m k v k' :
  map_get m k' <> None -> map_get (map_set m k v) k' <> None.
Proof.
  destruct (String.eqb_spec k' k) as [-> | Hne].
  - rewrite map_get_set_same. discriminate.
  - rewrite map_get_set_other by exact Hne. auto.
Qed.

Lemma map_set_absent m k v : map_get m k = None -> map_set m k v = m ++ [(k, v)].
Proof.
  induction m as [|[k' v'] m IH]; simpl; [reflexivity|].
  destruct (String.eqb k k'); [discriminate|]. intro H. rewrite IH by exact H. reflexivity.
Qed.

Lemma map_get_In m k v : map_get m k = Some v -> In (k, v) m.
Proof.
  induction m as [|[k' v'] m IH]; simpl; [discriminate|].
  destruct (String.eqb_spec k k') as [-> | _]; [intro H; injection H as ->; auto|].
  intro H. right. exact (IH H).
Qed.

Lemma getDataService_run r n e :
  let '(o, (r', n')) := getDataService r n e in
  httpClient r' = httpClient r /\
  (forall k, map_get (services r) k <> None -> map_get (services r') k <> None) /\
  match map_get (services r) ("dataService:" ++ e) with
  | Some sv => o = Ok sv /\ r' = r /\ n' = n
  | None =>
      let sv := {| svc_ref := n;
                   svc_kind := KData {| ds_client := httpClient r; apiPath := "/" ++ e |} |} in
      o = Ok sv /\ services r' = services r ++ [(("dataService:" ++ e)%string, sv)] /\ n' = S n
  end.
Proof.
  unfold getDataService.
  destruct (map_get (services r) ("dataService:" ++ e)) as [sv|] eqn:Hk.
  - unfold getService. rewrite Hk. auto.
  - unfold getService, registerService. cbn [services httpClient].
    rewrite map_get_set_same, map_set_absent by exact Hk.
    split; [reflexivity|]. split; [|auto].
    intros k Hk'. rewrite <- map_set_absent by exact Hk. apply map_get_set_keeps. exact Hk'.
Qed.

(** [getDataService] never throws and is idempotent: the first call for
    an entity type registers a new [DataService] on the path
    ["/" ++ entityType] over the registry's own client, added after the
    other services; a second call returns the same service object and
    changes nothing. *)
Theorem getDataService_idempotent r n e :
  let '(o1, (r1, n1)) := getDataService r n e in
  (exists sv, o1 = Ok sv /\ map_get (services r1) ("dataService:" ++ e) = Some sv /\
     (map_get (services r) ("dataService:" ++ e) = None ->
      sv = {| svc_ref := n;
              svc_kind := KData {| ds_client := httpClient r; apiPath := "/" ++ e |} |} /\
      services r1 = services r ++ [(("dataService:" ++ e)%string, sv)])) /\
  getDataService r1 n1 e = (o1, (r1, n1)).
Proof.
  pose proof (getDataService_run r n e) as Hd.
  destruct (getDataService r n e) as [o1 [r1 n1]] eqn:Hg.
  destruct Hd as [_ [_ Hd]].
  assert (Hsv : exists sv, o1 = Ok sv /\ map_get (services r1) ("dataService:" ++ e) = Some sv /\
     (map_get (services r) ("dataService:" ++ e) = None ->
      sv = {| svc_ref := n;
              svc_kind := KData {| ds_client := httpClient r; apiPath := "/" ++ e |} |} /\
      services r1 = services r ++ [(("dataService:" ++ e)%string, sv)])).
  { destruct (map_get (services r) ("dataService:" ++ e)) as [sv|] eqn:Hk.
    - destruct Hd as [-> [-> ->]]. exists sv. split; [reflexivity|]. split; [exact Hk|].
      discriminate.
    - destruct Hd as [-> [Hs ->]]. eexists. split; [reflexivity|].
      rewrite Hs. split; [|auto].
      rewrite <- map_set_absent by exact Hk. apply map_get_set_same. }
  split; [exact Hsv|].
  destruct Hsv as [sv [-> [Hk _]]].
  unfold getDataService. rewrite Hk. unfold getService. rewrite Hk. reflexivity.
Qed.

Lemma call_method_ok a r n c :
  httpClient r = new_HttpClient a no_options -> map_get (services r) "userService" <> None ->
  let '(r', n') := call_method r n c in
  httpClient r' = new_HttpClient a no_options /\ map_get (services r') "userService" <> None.
Proof.
  intros Hc Hu. destruct c as [b | e | k | | k sv]; cbn [call_method]; auto.
  - pose proof (getDataService_run r n e) as Hd.
    destruct (getDataService r n e) as [o [r' n']]. cbn [snd].
    destruct Hd as [Hc' [Hk _]]. rewrite Hc'. auto.
  - split; [exact Hc|]. apply map_get_set_keeps. exact Hu.
Qed.

Lemma run_calls_ok a g cs : registry_ok a g -> registry_ok a (run_calls g cs).
Proof.
  revert g. induction cs as [|c cs IH]; intros g Hg; [exact Hg|].
  destruct Hg as [r [Hi [Hc Hu]]].
  destruct c as [b | e | k | | k sv]; cbn [run_calls];
    [unfold getServiceRegistry, getInstance; rewrite Hi; apply IH; exists r; auto
    | rewrite Hi .. ];
    (match goal with
     | |- context [call_method r (next_ref g) ?c] =>
         pose proof (call_method_ok a r (next_ref g) c Hc Hu) as Hm;
         destruct (call_method r (next_ref g) c) as [r' n']
     end; apply IH; exists r'; destruct Hm; auto).
Qed.

(** [getServiceRegistry] is a singleton: in a program that starts without
    an instance, after the first call with [a] and any calls that follow,
    every further call, whatever its argument, returns the same registry;
    its client was built from [a] alone; and [getUserService] never
    throws. *)
Theorem registry_singleton a g cs :
  instance g = None ->
  let g1 := run_calls g (CallGetInstance a :: cs) in
  exists r, instance g1 = Some r /\
    (forall b, getServiceRegistry b g1 = (r, g1)) /\
    httpClient r = new_HttpClient a no_options /\ baseUrl (httpClient r) = a /\
    exists u, getUserService r = Ok u.
Proof.
  intros Hn. cbv zeta.
  change (run_calls g (CallGetInstance a :: cs))
    with (run_calls (snd (getServiceRegistry a g)) cs).
  assert (H0 : registry_ok a (snd (getServiceRegistry a g))).
  { unfold getServiceRegistry, getInstance. rewrite Hn. cbn.
    eexists; split; [reflexivity|]. split; [reflexivity|]. cbn. discriminate. }
  destruct (run_calls_ok a _ cs H0) as [r [Hi [Hc Hu]]].
  set (g1 := run_calls (snd (getServiceRegistry a g)) cs) in *.
  clearbody g1.
  exists r. split; [exact Hi|].
  split; [intro b; unfold getServiceRegistry, getInstance; rewrite Hi; reflexivity|].
  split; [exact Hc|]. split; [rewrite Hc; reflexivity|].
  unfold getUserService, getService.
  destruct (map_get (services r) "userService") as [u|]; [eauto | contradiction].
Qed.

Lemma startsWith_app p t : startsWith (p ++ t)%string p = true.
Proof.
  unfold startsWith. induction p as [|a p IH]; simpl; [destruct t; reflexivity|].
  destruct (ascii_dec a a) as [_ | Hn]; [exact IH | contradiction].
Qed.

Lemma filter_map_set_other (m : list (string * ServiceRef)) k v :
  startsWith k "dataService:" = false ->
  filter (fun p => startsWith (fst p) "dataService:") (map_set m k v) =
  filter (fun p => startsWith (fst p) "dataService:") m.
Proof.
  intro Hk. induction m as [|[k' v'] m IH]; cbn [map_set filter fst]; [rewrite Hk; reflexivity|].
  destruct (String.eqb_spec k k') as [<- | _]; cbn [filter fst]; [rewrite Hk; reflexivity|].
  rewrite IH. reflexivity.
Qed.

Lemma getDataService_fresh r n e :
  refs_fresh r n ->
  let '(o, (r', n')) := getDataService r n e in refs_fresh r' n'.
Proof.
  intros [Hnd Hlt].
  pose proof (getDataService_run r n e) as Hd.
  destruct (getDataService r n e) as [o [r' n']].
  destruct Hd as [_ [_ Hd]].
  destruct (map_get (services r) ("dataService:" ++ e)).
  - destruct Hd as [_ [-> ->]]. split; assumption.
  - destruct Hd as [_ [Hs ->]]. unfold refs_fresh, service_refs, data_entries in *.
    rewrite Hs, filter_app. cbn [filter fst]. rewrite startsWith_app, map_app.
    cbn [map snd svc_ref]. split.
    + apply NoDup_app; [exact Hnd | constructor; [intros []|constructor] |].
      intros x Hx [<- | []]. rewrite Forall_forall in Hlt. specialize (Hlt _ Hx). lia.
    + apply Forall_app. split; [|constructor; [lia | constructor]].
      eapply Forall_impl; [|exact Hlt]. intros m Hm. cbv beta in *. lia.
Qed.

Lemma run_calls_fresh g cs :
  forallb (fun c => negb (registers_data_key c)) cs = true ->
  (forall r, instance g = Some r -> refs_fresh r (next_ref g)) ->
  forall r, instance (run_calls g cs) = Some r -> refs_fresh r (next_ref (run_calls g cs)).
Proof.
  revert g. induction cs as [|c cs IH]; intros g Hc Hg; [exact Hg|].
  cbn [forallb] in Hc. apply andb_true_iff in Hc as [Hc1 Hc2].
  destruct c as [b | e | k | | k sv]; cbn [run_calls].
  - apply IH; [exact Hc2|]. unfold getServiceRegistry, getInstance.
    destruct (instance g) as [r0|] eqn:Hi; [cbn [snd]; rewrite Hi; exact Hg|].
    cbn. intros r Hr. injection Hr as <-. unfold refs_fresh, service_refs, data_entries. cbn.
    split; constructor.
  - destruct (instance g) as [r0|] eqn:Hi; [|apply IH; [exact Hc2 | rewrite Hi; exact Hg]].
    cbn [call_method]. pose proof (getDataService_fresh r0 (next_ref g) e (Hg r0 eq_refl)) as Hf.
    destruct (getDataService r0 (next_ref g) e) as [o [r' n']]. cbn [snd].
    apply IH; [exact Hc2|]. cbn. intros r Hr. injection Hr as <-. exact Hf.
  - destruct (instance g) as [r0|] eqn:Hi; [|apply IH; [exact Hc2 | rewrite Hi; exact Hg]].
    cbn [call_method]. apply IH; [exact Hc2|]. cbn. intros r Hr. injection Hr as <-. auto.
  - destruct (instance g) as [r0|] eqn:Hi; [|apply IH; [exact Hc2 | rewrite Hi; exact Hg]].
    cbn [call_method]. apply IH; [exact Hc2|]. cbn. intros r Hr. injection Hr as <-. auto.
  - destruct (instance g) as [r0|] eqn:Hi; [|apply IH; [exact Hc2 | rewrite Hi; exact Hg]].
    cbn [call_method]. apply IH; [exact Hc2|]. cbn. intros r Hr. injection Hr as <-.
    cbn [registers_data_key negb] in Hc1. destruct (startsWith k "dataService:") eqn:Hk;
      [discriminate|].
    destruct (Hg r0 eq_refl) as [Hnd Hlt]. unfold refs_fresh, service_refs, data_entries in *.
    cbn [registerService services]. rewrite filter_map_set_other by exact Hk. split; assumption.
Qed.

Lemma NoDup_map_neq {A B} (f : A -> B) l x y :
  NoDup (map f l) -> In x l -> In y l -> x <> y -> f x <> f y.
Proof.
  induction l as [|z l IH]; intros Hnd Hx Hy Hne; [destruct Hx|].
  inversion Hnd as [|? ? Hz Hnd']; subst.
  destruct Hx as [<- | Hx]; destruct Hy as [<- | Hy].
  - contradiction.
  - intro He. apply Hz. rewrite He. apply in_map. exact Hy.
  - intro He. apply Hz. rewrite <- He. apply in_map. exact Hx.
  - exact (IH Hnd' Hx Hy Hne).
Qed.

Lemma str_app_inv_l (p a b : string) : (p ++ a)%string = (p ++ b)%string -> a = b.
Proof. induction p as [|c p IH]; simpl; [auto|]. intro H. injection H. exact IH. Qed.

(** In a program that starts without an instance and never registers a
    service object of its own under a [dataService:...] key (it may
    register objects under other keys), [getDataService] for two different
    entity types returns two different service objects. *)
Theorem distinct_entities_distinct_services g cs e1 e2 r :
  instance g = None ->
  forallb (fun c => negb (registers_data_key c)) cs = true ->
  e1 <> e2 ->
  instance (run_calls g cs) = Some r ->
  let '(o1, (r1, n1)) := getDataService r (next_ref (run_calls g cs)) e1 in
  let '(o2, _) := getDataService r1 n1 e2 in
  exists s1 s2, o1 = Ok s1 /\ o2 = Ok s2 /\ svc_ref s1 <> svc_ref s2.
Proof.
  intros Hn Hc Hne Hr.
  assert (Hf : refs_fresh r (next_ref (run_calls g cs))).
  { apply (run_calls_fresh g cs Hc); [intros r0 Hr0; congruence | exact Hr]. }
  set (n := next_ref (run_calls g cs)) in *.
  pose proof (getDataService_fresh r n e1 Hf) as Hf1.
  pose proof (getDataService_run r n e1) as Hd1.
  destruct (getDataService r n e1) as [o1 [r1 n1]] eqn:Hg1.
  pose proof (getDataService_run r1 n1 e2) as Hd2.
  destruct (getDataService r1 n1 e2) as [o2 [r2 n2]] eqn:Hg2.
  pose proof (getDataService_fresh r1 n1 e2 Hf1) as Hf2. rewrite Hg2 in Hf2.
  assert (Hk : ("dataService:" ++ e1)%string <> ("dataService:" ++ e2)%string)
    by (intro H; apply Hne; exact (str_app_inv_l _ _ _ H)).
  (* the first service, registered under its key in [r1] *)
  assert (H1 : exists s1, o1 = Ok s1 /\ map_get (services r1) ("dataService:" ++ e1) = Some s1).
  { destruct Hd1 as [_ [_ Hd1]].
    destruct (map_get (services r) ("dataService:" ++ e1)) as [sv|] eqn:Hk1.
    - destruct Hd1 as [-> [-> _]]. eauto.
    - destruct Hd1 as [-> [Hs _]]. eexists; split; [reflexivity|].
      rewrite Hs, <- map_set_absent by exact Hk1. apply map_get_set_same. }
  destruct H1 as [s1 [-> Hs1]].
  (* the second one, and the first still there in [r2] *)
  assert (H2 : exists s2, o2 = Ok s2 /\ map_get (services r2) ("dataService:" ++ e2) = Some s2 /\
                          map_get (services r2) ("dataService:" ++ e1) = Some s1).
  { destruct Hd2 as [_ [_ Hd2]].
    destruct (map_get (services r1) ("dataService:" ++ e2)) as [sv|] eqn:Hk2.
    - destruct Hd2 as [-> [-> _]]. eauto.
    - destruct Hd2 as [-> [Hs _]]. eexists; split; [reflexivity|].
      rewrite Hs, <- !map_set_absent by exact Hk2.
      split; [apply map_get_set_same|]. rewrite map_get_set_other by exact Hk. exact Hs1. }
  destruct H2 as [s2 [-> [Hs2 Hs1']]].
  exists s1, s2. split; [reflexivity|]. split; [reflexivity|].
  destruct Hf2 as [Hnd _].
  apply (NoDup_map_neq (fun p => svc_ref (snd p)) (data_entries r2)
           (("dataService:" ++ e1)%string, s1) (("dataService:" ++ e2)%string, s2) Hnd).
  - unfold data_entries. apply filter_In. split; [apply map_get_In; exact Hs1' | apply startsWith_app].
  - unfold data_entries. apply filter_In. split; [apply map_get_In; exact Hs2 | apply startsWith_app].
  - intro H. apply Hk. exact (f_equal fst H).
Qed.


(** [getAll] and [getById] never write the item list, whether they resolve
    or reject: only [initialize] stores what [getAll] returns. *)
Theorem reads_keep_items svc s :
  (forall params, ds_items (snd (getAll svc params s)) = ds_items s) /\
  (forall id, ds_items (snd (getById svc id s)) = ds_items s).
Proof.
  split.
  - intros params. pose proof (getAll_run svc params s) as H.
    destruct (getAll svc params s) as [o s']. destruct H as [_ [H _]]. exact H.
  - intros id. pose proof (getById_run svc id s) as H.
    destruct (getById svc id s) as [o s']. destruct H as [_ [H _]]. exact H.
Qed.

(** [getById] fetches only [apiPath/id] under the client's base URL, with
    method GET and no body, and resolves with the decoded body of the
    response. *)
Theorem getById_fetches_item_url svc id s :
  let '(o, s') := getById svc id s in
  (exists mid, trace (ds_world s') = trace (ds_world s) ++ EvLoading true :: mid ++ [EvLoading false] /\
    fetches mid <> [] /\
    Forall (fun f => fst f = buildUrl (baseUrl (ds_client svc)) (apiPath svc ++ "/" ++ id) /\
                     method (snd f) = "GET" /\ body (snd f) = None) (fetches mid)) /\
  (forall d, o = Ok d ->
     exists resp, fst (get (ds_client svc) (apiPath svc ++ "/" ++ id) no_options (ds_world s)) = Ok resp /\
                  d = data resp).
Proof.
  pose proof (getById_run svc id s) as Hg.
  pose proof (request_pattern (ds_client svc) "GET" (apiPath svc ++ "/" ++ id) JUndefined
                no_options (ds_world s)) as Hp.
  destruct (getById svc id s) as [o s'].
  destruct Hg as [_ [_ [Hw Ho]]]. unfold get in Hw, Ho |- *. rewrite Hw. cbv zeta in Hp.
  destruct (request _ _ _ _ _ _) as [o1 w1]. cbn [snd fst] in *.
  destruct Hp as [n [mid [Ht [Hn [Hsk _]]]]].
  split.
  - exists mid. split; [exact Ht|].
    rewrite <- fetches_skeleton, Hsk, fetches_attempts.
    split; [destruct n; [lia | discriminate]|].
    apply Forall_forall. intros f Hf. apply repeat_spec in Hf. subst f. repeat split.
  - intros d Hd. destruct o1 as [resp | e].
    + exists resp. split; [reflexivity|]. rewrite Ho in Hd. injection Hd as Hd. symmetry. exact Hd.
    + destruct Ho as [Ho _]. rewrite Ho in Hd. discriminate.
Qed.

Lemma filter_keep_all l id :
  Forall (fun x => has_id x id = false) l -> filter (fun x => negb (has_id x id)) l = l.
Proof.
  induction 1 as [|x l Hx _ IH]; [reflexivity|]. simpl. rewrite Hx. simpl. rewrite IH. reflexivity.
Qed.

(** Creating an item that the server answers with the id [id], then
    deleting [id], gives back the item list as it was, when no item had
    that id before. *)
Theorem create_then_delete_restores svc item id s l resp resp2 :
  ds_items s = IArr l ->
  Forall (fun x => get_id x <> None) l ->
  Forall (fun x => has_id x id = false) l ->
  fst (post (ds_client svc) (apiPath svc) item no_options (ds_world s)) = Ok resp ->
  has_id (any_of_data (data resp)) id = true ->
  fst (delete (ds_client svc) (apiPath svc ++ "/" ++ id) no_options
         (ds_world (snd (create svc item s)))) = Ok resp2 ->
  let '(o, s2) := ds_delete svc id (snd (create svc item s)) in
  o = Ok tt /\ ds_items s2 = IArr l.
Proof.
  intros Hl Hn Hnone Hp Hx Hd.
  pose proof (create_run svc item s) as Hc.
  destruct (create svc item s) as [o1 s1]. cbn [snd] in Hd |- *.
  destruct Hc as [_ [_ Hc]]. rewrite Hp, Hl in Hc. cbn [spread_items] in Hc.
  destruct Hc as [_ Hi1].
  pose proof (delete_run svc id s1) as Hdel.
  destruct (ds_delete svc id s1) as [o2 s2].
  destruct Hdel as [_ [_ Hdel]]. rewrite Hd, Hi1 in Hdel. cbn [array_items] in Hdel.
  assert (Hn' : Forall (fun x => get_id x <> None) (l ++ [any_of_data (data resp)])).
  { apply Forall_app. split; [exact Hn|]. constructor; [|constructor].
    unfold has_id in Hx. destruct (get_id _); [discriminate | discriminate]. }
  rewrite (filter_delete_ok _ _ Hn') in Hdel. destruct Hdel as [Ho Hi].
  split; [exact Ho|]. rewrite Hi, filter_app. simpl. rewrite Hx. simpl.
  rewrite app_nil_r, filter_keep_all by exact Hnone. reflexivity.
Qed.

Lemma map_set_keys m k v :
  map fst (map_set m k v) =
  match map_get m k with Some _ => map fst m | None => map fst m ++ [k] end.
Proof.
  induction m as [|[k' v'] m IH]; simpl; [reflexivity|].
  destruct (String.eqb_spec k k') as [-> | _]; simpl; [reflexivity|].
  rewrite IH. destruct (map_get m k); reflexivity.
Qed.

(** [registerService] has the semantics of [Map.prototype.set]: [getService]
    then finds the new service under its key, every other key keeps its
    service (or its error), and the keys keep their insertion order, a new
    key going last. *)
Theorem registerService_getService r k v :
  getService (registerService r k v) k = Ok v /\
  (forall k', k' <> k -> getService (registerService r k v) k' = getService r k') /\
  map fst (services (registerService r k v)) =
    match map_get (services r) k with
    | Some _ => map fst (services r)
    | None => map fst (services r) ++ [k]
    end.
Proof.
  unfold getService, registerService. cbn [services].
  split; [rewrite map_get_set_same; reflexivity|].
  split; [intros k' Hk; rewrite map_get_set_other by exact Hk; reflexivity|].
  apply map_set_keys.
Qed.

End Client.

(* ------------------------------------------------------------------ *)
(** ** Concrete instances *)

Example string_of_Z_404 : string_of_Z 404 = "404".
Proof. reflexivity. Qed.

Example falsy_body_not_sent :
  body (request_init demo_json_stringify demo_client "POST" (JNum 0) no_options) = None.
Proof. reflexivity. Qed.

Lemma request_always_500_witness :
  retries (merged_options demo_client (retry_options 2 10)) = Val (Z.of_nat 2) /\
  (forall i u init, exists r, always (mk_response 500 [] "boom") i u init = FetchResponse r /\
                              r_status r = 500) /\
  let fullUrl := buildUrl (baseUrl demo_client) "/users/1" in
  let init := request_init demo_json_stringify demo_client "GET" JUndefined
                (merged_options demo_client (retry_options 2 10)) in
  let '(o, w') := request demo_json_parse demo_json_stringify (always (mk_response 500 [] "boom"))
                    demo_client "GET" "/users/1" JUndefined (retry_options 2 10) fresh_world in
  fetchCount w' = (fetchCount fresh_world + S 2)%nat /\
  (exists new, trace w' = trace fresh_world ++ new /\ fetches new = repeat (fullUrl, init) (S 2)) /\
  exists r, always (mk_response 500 [] "boom") (fetchCount fresh_world + 2)%nat fullUrl init =
            FetchResponse r /\
            o = Throw (EHttp (status_error r)) /\ err_status (status_error r) = 500.
Proof.
  assert (H500 : forall i u init, exists r, always (mk_response 500 [] "boom") i u init =
                   FetchResponse r /\ r_status r = 500)
    by (intros; eexists; split; reflexivity).
  split; [reflexivity|]. split; [exact H500|].
  exact (request_always_500 demo_json_parse demo_json_stringify (always (mk_response 500 [] "boom"))
           demo_client "GET" "/users/1" JUndefined (retry_options 2 10) 2 fresh_world
           eq_refl H500).
Defined.

Lemma retry_policy_witness :
  let r := mk_response 404 [] "not found" in
  let init := request_init demo_json_stringify demo_client "GET" JUndefined
                (merged_options demo_client (retry_options 3 10)) in
  always r (fetchCount fresh_world) (buildUrl (baseUrl demo_client) "/users/404") init =
  FetchResponse r /\
  let '(o, w') := request demo_json_parse demo_json_stringify (always r) demo_client "GET"
                    "/users/404" JUndefined (retry_options 3 10) fresh_world in
  o = Throw (EHttp (status_error r)) /\
  fetchCount w' = S (fetchCount fresh_world) /\
  exists new, trace w' = trace fresh_world ++ new /\
              fetches new = [(buildUrl (baseUrl demo_client) "/users/404", init)].
Proof.
  intros r init. split; [reflexivity|].
  destruct (retry_policy demo_json_parse demo_json_stringify (always r)) as [_ [_ [_ H4]]].
  apply (H4 demo_client "GET" "/users/404" JUndefined (retry_options 3 10) fresh_world r);
    [reflexivity | simpl; lia | simpl; lia | simpl; lia].
Defined.

Lemma non_2xx_raises_status_error_witness :
  let r := mk_response 404 [("content-type", "application/json")] "null" in
  (r_status r < 200 \/ 300 <= r_status r) /\
  fst (request demo_json_parse demo_json_stringify (always r) demo_client "GET" "/users/404"
         JUndefined no_options fresh_world) = Throw (EHttp (status_error r)).
Proof.
  intros r. assert (Hs : r_status r < 200 \/ 300 <= r_status r) by (simpl; lia).
  split; [exact Hs|].
  destruct (non_2xx_raises_status_error demo_json_parse demo_json_stringify (always r) demo_client
              "GET" "/users/404" JUndefined no_options fresh_world r Hs) as [_ H2].
  apply H2. intro i. reflexivity.
Defined.


Lemma buildUrl_one_slash_witness :
  endsWithSlash "https://api.example.com" = false /\ startsWith "users/1" "/" = false /\
  startsWith "users/1" "http://" = false /\ startsWith "users/1" "https://" = false /\
  buildUrl ("https://api.example.com" ++ "/") ("/" ++ "users/1") =
  ("https://api.example.com" ++ "/" ++ "users/1")%string /\
  buildUrl "https://api.example.com" ("HTTPS://" ++ "other.example.com/x") =
  ("https://api.example.com" ++ "/" ++ "HTTPS://" ++ "other.example.com/x")%string /\
  buildUrl ("https://api.example.com" ++ "//") "users" = ("https://api.example.com" ++ "//" ++ "users")%string.
Proof.
  destruct buildUrl_one_slash as [_ [_ [H1 [H2 [H3 _]]]]].
  split; [reflexivity|]. split; [reflexivity|]. split; [reflexivity|]. split; [reflexivity|].
  split; [exact (H1 "https://api.example.com" "users/1" true true eq_refl eq_refl eq_refl eq_refl)|].
  split; [exact (proj1 (H2 "https://api.example.com" "other.example.com/x" eq_refl))|].
  exact (H3 "https://api.example.com" "users" eq_refl eq_refl eq_refl).
Defined.

(** C5: an absolute address with an uppercase scheme is not used as it
    is but joined to the base, and a base ending in two slashes gives a
    URL with two slashes between base and path. *)
Lemma buildUrl_uppercase_scheme_and_double_slash :
  buildUrl "https://api.example.com" "HTTPS://other.example.com/x" =
    "https://api.example.com/HTTPS://other.example.com/x" /\
  buildUrl "https://api.example.com" "HTTPS://other.example.com/x" <>
    "HTTPS://other.example.com/x" /\
  buildUrl "https://api.example.com//" "users" = "https://api.example.com//users" /\
  buildUrl "https://api.example.com//" "users" <> "https://api.example.com/users".
Proof. vm_compute. repeat split; discriminate. Qed.

Lemma decode_dispatch_by_substring_witness :
  let r := mk_response 200 [("content-type", "text/plain; charset=utf-8")] "hi" in
  let opts := merged_options demo_client no_options in
  200 <= r_status r < 300 /\
  fst (executeRequest demo_json_parse demo_json_stringify (always r) demo_client "GET" "/greeting"
         JUndefined opts fresh_world) =
  Ok {| data := DText "hi"; res_status := 200; res_headers := r_headers r; ok := true |}.
Proof.
  intros r opts. assert (Hs : 200 <= r_status r < 300) by (simpl; lia).
  split; [exact Hs|].
  exact (decode_dispatch_by_substring demo_json_parse demo_json_stringify (always r) demo_client
           "GET" "/greeting" JUndefined opts fresh_world r eq_refl Hs).
Defined.

Lemma transport_errors_status_0_witness :
  let opts := merged_options demo_client no_options in
  fst (executeRequest demo_json_parse demo_json_stringify
         (always_reject (EDOMException "AbortError" "This operation was aborted"))
         demo_client "GET" "/slow" JUndefined opts fresh_world) =
  Throw (EHttp {| err_message := "Request timeout"; err_status := 0; err_response := None |}) /\
  fst (executeRequest demo_json_parse demo_json_stringify
         (always_reject (EError "Failed to fetch"))
         demo_client "GET" "/down" JUndefined opts fresh_world) =
  Throw (EHttp {| err_message := "Failed to fetch"; err_status := 0; err_response := None |}).
Proof.
  intros opts. split.
  - destruct (transport_errors_status_0 demo_json_parse demo_json_stringify
                (always_reject (EDOMException "AbortError" "This operation was aborted"))
                demo_client "GET" "/slow" JUndefined opts fresh_world) as [H1 _].
    exact (H1 "This operation was aborted" eq_refl).
  - destruct (transport_errors_status_0 demo_json_parse demo_json_stringify
                (always_reject (EError "Failed to fetch"))
                demo_client "GET" "/down" JUndefined opts fresh_world) as [_ H2].
    exact (H2 (EError "Failed to fetch") "Failed to fetch" eq_refl (or_introl eq_refl)).
Defined.

Lemma request_body_and_headers_witness :
  let opts := {| headers := Val [("X-Trace", "1")]; timeout := Absent;
                 retries := Absent; retryDelay := Absent |} in
  let init := request_init demo_json_stringify demo_client "POST" (JObj [("name", JStr "x")])
                (merged_options demo_client opts) in
  body init = Some (demo_json_stringify (JObj [("name", JStr "x")])) /\
  obj_get (fi_headers init) "Content-Type" = Some "application/json".
Proof.
  intros opts init.
  destruct (request_body_and_headers demo_json_parse demo_json_stringify
              (always (mk_response 201 [] "")) demo_client "POST" "/items"
              (JObj [("name", JStr "x")]) opts fresh_world) as [_ [Hb [_ Hct]]].
  split.
  - exact (Hb eq_refl).
  - apply (Hct "https://api.example.com" no_options eq_refl eq_refl).
    + simpl. repeat constructor. simpl. tauto.
    + reflexivity.
Defined.

Lemma request_json_parse_failure_retried_witness :
  let r := mk_response 200 [("content-type", "application/json")] "oops" in
  let fullUrl := buildUrl (baseUrl demo_client) "/users/1" in
  let init := request_init demo_json_stringify demo_client "GET" JUndefined
                (merged_options demo_client (retry_options 2 10)) in
  let '(o, w') := request demo_json_parse demo_json_stringify (always r) demo_client "GET"
                    "/users/1" JUndefined (retry_options 2 10) fresh_world in
  fetchCount w' = (fetchCount fresh_world + S 2)%nat /\
  (exists new, trace w' = trace fresh_world ++ new /\ fetches new = repeat (fullUrl, init) (S 2)) /\
  exists r' msg, always r (fetchCount fresh_world + 2)%nat fullUrl init = FetchResponse r' /\
    demo_json_parse (r_body r') = inr msg /\
    o = Throw (EHttp {| err_message := msg; err_status := 0; err_response := None |}).
Proof.
  intros r fullUrl init.
  apply (request_json_parse_failure_retried demo_json_parse demo_json_stringify (always r)
           demo_client "GET" "/users/1" JUndefined (retry_options 2 10) 2 fresh_world).
  - reflexivity.
  - intro i. exists r, "Unexpected token in JSON at position 0".
    repeat split; reflexivity.
Defined.


(** C6 refuted: [Text/Plain] (a [text/*] type: media types are
    case-insensitive) is read as a blob, and [application/json-seq] (not
    [application/json]) is parsed as JSON. *)
Lemma content_type_dispatch_counterexample :
  fst (get demo_json_parse demo_json_stringify
         (always (mk_response 200 [("content-type", "Text/Plain")] "hi"))
         demo_client "/greeting" no_options fresh_world) =
  Ok {| data := DBlob "hi"; res_status := 200;
        res_headers := [("content-type", "Text/Plain")]; ok := true |} /\
  fst (get demo_json_parse demo_json_stringify
         (always (mk_response 200 [("content-type", "application/json-seq")] "null"))
         demo_client "/events" no_options fresh_world) =
  Ok {| data := DJson JNull; res_status := 200;
        res_headers := [("content-type", "application/json-seq")]; ok := true |}.
Proof. split; vm_compute; reflexivity. Qed.

(** C8 refuted: a client constructed with its own default headers loses the
    built-in [Content-Type: application/json], so a JSON body is sent
    without it. *)
Lemma constructor_headers_drop_content_type :
  let client := new_HttpClient "https://api.example.com"
                  {| headers := Val [("Authorization", "Bearer t")]; timeout := Absent;
                     retries := Absent; retryDelay := Absent |} in
  let w' := snd (post demo_json_parse demo_json_stringify
                   (always (mk_response 201 [("content-type", "text/plain")] "created"))
                   client "/items" (JObj [("name", JStr "x")]) no_options fresh_world) in
  fetches (trace w') =
  [("https://api.example.com/items",
    {| method := "POST"; fi_headers := [("Authorization", "Bearer t")];
       body := Some (demo_json_stringify (JObj [("name", JStr "x")])) |})] /\
  obj_get [("Authorization", "Bearer t")] "Content-Type" = None.
Proof. split; vm_compute; reflexivity. Qed.

(* ------------------------------------------------------------------ *)
(** ** Instances of the further properties *)

Lemma request_no_budget_single_attempt_witness :
  (default_prop (retries (merged_options demo_client (retry_options 0 10))) 1 <= 0)%Z /\
  let '(o, w') := request demo_json_parse demo_json_stringify (always (mk_response 500 [] "boom"))
                    demo_client "GET" "/users/1" JUndefined (retry_options 0 10) fresh_world in
  fetchCount w' = S (fetchCount fresh_world) /\
  exists mid,
    trace w' = trace fresh_world ++ EvLoading true :: mid ++ [EvLoading false] /\
    length (fetches mid) = 1%nat /\ sleeps mid = [].
Proof.
  split; [vm_compute; discriminate|].
  apply (request_no_budget_single_attempt demo_json_parse demo_json_stringify
           (always (mk_response 500 [] "boom")) demo_client "GET" "/users/1" JUndefined
           (retry_options 0 10) fresh_world).
  vm_compute. discriminate.
Defined.

Lemma executeRequestWithRetries_recovers_witness :
  let good := mk_response 200 [("content-type", "text/plain")] "ok" in
  let net := flaky 2 (mk_response 503 [] "busy") good in
  let opts := merged_options demo_client no_options in
  let '(o, w') := executeRequestWithRetries demo_json_parse demo_json_stringify net demo_client
                    "GET" "/users" JUndefined opts 3 10 fresh_world in
  (exists resp, o = Ok resp /\ res_status resp = 200 /\
                res_headers resp = [("content-type", "text/plain")]) /\
  fetchCount w' = 3%nat.
Proof.
  intros good net opts.
  apply (executeRequestWithRetries_recovers demo_json_parse demo_json_stringify net demo_client
           "GET" "/users" JUndefined opts 10 good 2 3 fresh_world).
  - lia.
  - intros i Hi. exists (mk_response 503 [] "busy"). split; [|cbn; lia].
    unfold net, flaky. cbn [fetchCount fresh_world Nat.add].
    destruct i as [|[|i]]; [reflexivity | reflexivity | lia].
  - reflexivity.
  - reflexivity.
  - cbn. discriminate.
Defined.

Lemma request_throws_only_http_witness :
  fst (request demo_json_parse demo_json_stringify (always (mk_response 404 [] "missing"))
         demo_client "GET" "/users/9" JUndefined no_options fresh_world) =
    Throw (EHttp (status_error (mk_response 404 [] "missing"))) /\
  exists h, EHttp (status_error (mk_response 404 [] "missing")) = EHttp h.
Proof.
  assert (H : fst (request demo_json_parse demo_json_stringify (always (mk_response 404 [] "missing"))
                     demo_client "GET" "/users/9" JUndefined no_options fresh_world) =
              Throw (EHttp (status_error (mk_response 404 [] "missing"))))
    by (vm_compute; reflexivity).
  split; [exact H|].
  exact (request_throws_only_http demo_json_parse demo_json_stringify
           (always (mk_response 404 [] "missing")) demo_client "GET" "/users/9" JUndefined
           no_options fresh_world _ H).
Defined.

Lemma create_appends_witness :
  let s := {| ds_items := IArr [AJson (JObj [("id", JStr "1")])]; ds_loading := false;
              ds_world := fresh_world |} in
  let net := always (json_response 201 "true") in
  let resp := {| data := DJson (JBool true); res_status := 201;
                 res_headers := [("content-type", "application/json")]; ok := true |} in
  fst (post demo_json_parse demo_json_stringify net (ds_client demo_service) (apiPath demo_service)
          (JObj [("name", JStr "Ada")]) no_options (ds_world s)) = Ok resp /\
  let '(o, s') := create demo_json_parse demo_json_stringify net demo_service
                    (JObj [("name", JStr "Ada")]) s in
  o = Ok (data resp) /\
  ds_items s' = IArr ([AJson (JObj [("id", JStr "1")])] ++ [any_of_data (data resp)]) /\
  ds_loading s' = false.
Proof.
  intros s net resp.
  assert (Hp : fst (post demo_json_parse demo_json_stringify net (ds_client demo_service)
                       (apiPath demo_service) (JObj [("name", JStr "Ada")]) no_options
                       (ds_world s)) = Ok resp) by (vm_compute; reflexivity).
  split; [exact Hp|].
  exact (create_appends demo_json_parse demo_json_stringify net demo_service
           (JObj [("name", JStr "Ada")]) s _ resp eq_refl Hp).
Defined.

Lemma update_replaces_matching_witness :
  let l := [AJson (JObj [("id", JStr "1")]); AJson (JObj [("id", JStr "2")])] in
  let s := {| ds_items := IArr l; ds_loading := false; ds_world := fresh_world |} in
  let net := always (json_response 200 "true") in
  let resp := {| data := DJson (JBool true); res_status := 200;
                 res_headers := [("content-type", "application/json")]; ok := true |} in
  Forall (fun x => get_id x <> None) l /\
  fst (put demo_json_parse demo_json_stringify net (ds_client demo_service)
         (apiPath demo_service ++ "/" ++ "2") (JBool true) no_options (ds_world s)) = Ok resp /\
  let '(o, s') := update demo_json_parse demo_json_stringify net demo_service "2" (JBool true) s in
  o = Ok (data resp) /\ ds_loading s' = false /\
  exists l', ds_items s' = IArr l' /\ length l' = length l /\
    (forall i x, nth_error l i = Some x ->
       nth_error l' i = Some (if has_id x "2" then any_of_data (data resp) else x)) /\
    (Forall (fun x => has_id x "2" = false) l -> l' = l).
Proof.
  intros l s net resp.
  assert (Hn : Forall (fun x => get_id x <> None) l)
    by (repeat constructor; discriminate).
  assert (Hp : fst (put demo_json_parse demo_json_stringify net (ds_client demo_service)
                      (apiPath demo_service ++ "/" ++ "2") (JBool true) no_options
                      (ds_world s)) = Ok resp) by (vm_compute; reflexivity).
  split; [exact Hn|]. split; [exact Hp|].
  exact (update_replaces_matching demo_json_parse demo_json_stringify net demo_service "2"
           (JBool true) s l resp eq_refl Hn Hp).
Defined.

Lemma delete_removes_matching_witness :
  let l := [AJson (JObj [("id", JStr "1")]); AJson (JObj [("id", JStr "2")])] in
  let s := {| ds_items := IArr l; ds_loading := false; ds_world := fresh_world |} in
  let net := always (mk_response 200 [] "") in
  let resp := {| data := DBlob ""; res_status := 200; res_headers := []; ok := true |} in
  Forall (fun x => get_id x <> None) l /\
  fst (delete demo_json_parse demo_json_stringify net (ds_client demo_service)
         (apiPath demo_service ++ "/" ++ "1") no_options (ds_world s)) = Ok resp /\
  let '(o, s') := ds_delete demo_json_parse demo_json_stringify net demo_service "1" s in
  o = Ok tt /\ ds_loading s' = false /\
  exists l', ds_items s' = IArr l' /\
    Forall (fun x => has_id x "1" = false) l' /\
    (forall x, In x l' <-> In x l /\ has_id x "1" = false) /\
    (Forall (fun x => has_id x "1" = false) l -> l' = l).
Proof.
  intros l s net resp.
  assert (Hn : Forall (fun x => get_id x <> None) l)
    by (repeat constructor; discriminate).
  assert (Hp : fst (delete demo_json_parse demo_json_stringify net (ds_client demo_service)
                      (apiPath demo_service ++ "/" ++ "1") no_options (ds_world s)) = Ok resp)
    by (vm_compute; reflexivity).
  split; [exact Hn|]. split; [exact Hp|].
  exact (delete_removes_matching demo_json_parse demo_json_stringify net demo_service "1"
           s l resp eq_refl Hn Hp).
Defined.

Lemma mutation_rejection_keeps_items_witness :
  let s := new_DSState fresh_world in
  let net := always (mk_response 404 [] "missing") in
  let e := EHttp (status_error (mk_response 404 [] "missing")) in
  fst (create demo_json_parse demo_json_stringify net demo_service (JObj []) s) = Throw e /\
  ds_items (snd (create demo_json_parse demo_json_stringify net demo_service (JObj []) s)) =
    ds_items s /\
  (fst (post demo_json_parse demo_json_stringify net (ds_client demo_service) (apiPath demo_service)
          (JObj []) no_options (ds_world s)) = Throw e \/
   exists resp msg, fst (post demo_json_parse demo_json_stringify net (ds_client demo_service)
                           (apiPath demo_service) (JObj []) no_options (ds_world s)) = Ok resp /\
                    e = type_error msg).
Proof.
  intros s net e.
  assert (H : fst (create demo_json_parse demo_json_stringify net demo_service (JObj []) s) =
              Throw e) by (vm_compute; reflexivity).
  split; [exact H|].
  exact (proj1 (mutation_rejection_keeps_items demo_json_parse demo_json_stringify net
                  demo_service s e) (JObj []) H).
Defined.

Lemma mutation_on_object_items_fails_after_request_witness :
  let s := {| ds_items := IOther (AJson (JObj [("items", JArr [])])); ds_loading := false;
              ds_world := fresh_world |} in
  let net := always (json_response 200 "true") in
  ds_items s = IOther (AJson (JObj [("items", JArr [])])) /\
  let '(o, s') := create demo_json_parse demo_json_stringify net demo_service (JObj []) s in
  (exists msg, o = Throw (type_error msg)) /\ ds_items s' = ds_items s /\
  ds_world s' = snd (post demo_json_parse demo_json_stringify net (ds_client demo_service)
                       (apiPath demo_service) (JObj []) no_options (ds_world s)).
Proof.
  intros s net. split; [reflexivity|].
  apply (proj1 (mutation_on_object_items_fails_after_request demo_json_parse demo_json_stringify
                  net demo_service s [("items", JArr [])] eq_refl)
           (JObj []) {| data := DJson (JBool true); res_status := 200;
                        res_headers := [("content-type", "application/json")]; ok := true |}).
  vm_compute. reflexivity.
Defined.

Lemma reads_reject_only_http_witness :
  let s := new_DSState fresh_world in
  let net := always (mk_response 500 [] "down") in
  let e := EHttp (status_error (mk_response 500 [] "down")) in
  fst (getAll demo_json_parse demo_json_stringify net demo_service None s) = Throw e /\
  (exists h, e = EHttp h) /\
  ds_items (snd (getAll demo_json_parse demo_json_stringify net demo_service None s)) = ds_items s.
Proof.
  intros s net e.
  assert (H : fst (getAll demo_json_parse demo_json_stringify net demo_service None s) = Throw e)
    by (vm_compute; reflexivity).
  split; [exact H|].
  exact (proj1 (reads_reject_only_http demo_json_parse demo_json_stringify net demo_service s)
           None e H).
Defined.

Lemma getAll_query_round_trip_witness :
  let p := [("q", "a b&c=d"); ("page", "2")] in
  let net := always (json_response 200 "null") in
  p <> [] /\
  exists q, form_parse q = p /\
  let '(o, s') := getAll demo_json_parse demo_json_stringify net demo_service (Some p)
                    (new_DSState fresh_world) in
  exists mid, trace (ds_world s') = trace fresh_world ++ EvLoading true :: mid ++ [EvLoading false] /\
    fetches mid <> [] /\
    Forall (fun f => fst f = buildUrl (baseUrl demo_client) ("/users" ++ "?" ++ q)) (fetches mid).
Proof.
  intros p net. split; [discriminate|].
  exact (getAll_query_round_trip demo_json_parse demo_json_stringify net demo_service p
           (new_DSState fresh_world) ltac:(discriminate)).
Defined.

Lemma getAll_no_params_no_query_witness :
  let net := always (json_response 200 "null") in
  ((None : option (list (string * string))) = None \/ (None : option (list (string * string))) = Some []) /\
  let '(o, s') := getAll demo_json_parse demo_json_stringify net demo_service None
                    (new_DSState fresh_world) in
  exists mid, trace (ds_world s') = trace fresh_world ++ EvLoading true :: mid ++ [EvLoading false] /\
    fetches mid <> [] /\
    Forall (fun f => fst f = buildUrl (baseUrl demo_client) "/users") (fetches mid).
Proof.
  intros net. split; [left; reflexivity|].
  exact (getAll_no_params_no_query demo_json_parse demo_json_stringify net demo_service None
           (new_DSState fresh_world) (or_introl eq_refl)).
Defined.

Lemma registry_singleton_witness :
  let cs := [CallGetDataService "users"; CallGetInstance "https://other.example.com"] in
  instance fresh_global = None /\
  let g1 := run_calls fresh_global (CallGetInstance "https://api.example.com" :: cs) in
  exists r, instance g1 = Some r /\
    (forall b, getServiceRegistry b g1 = (r, g1)) /\
    httpClient r = new_HttpClient "https://api.example.com" no_options /\
    baseUrl (httpClient r) = "https://api.example.com" /\
    exists u, getUserService r = Ok u.
Proof.
  intros cs. split; [reflexivity|].
  exact (registry_singleton "https://api.example.com" fresh_global cs eq_refl).
Defined.

Lemma distinct_entities_distinct_services_witness :
  let cs := [CallGetInstance "https://api.example.com";
             CallRegisterService "auditService" {| svc_ref := 0; svc_kind := KUser |};
             CallGetDataService "users"] in
  let client := new_HttpClient "https://api.example.com" no_options in
  let r := {| services := [("userService", {| svc_ref := 0; svc_kind := KUser |});
                           ("auditService", {| svc_ref := 0; svc_kind := KUser |});
                           ("dataService:users",
                            {| svc_ref := 1;
                               svc_kind := KData {| ds_client := client; apiPath := "/users" |} |})];
              httpClient := client |} in
  instance fresh_global = None /\
  forallb (fun c => negb (registers_data_key c)) cs = true /\
  "users" <> "posts" /\
  instance (run_calls fresh_global cs) = Some r /\
  let '(o1, (r1, n1)) := getDataService r (next_ref (run_calls fresh_global cs)) "users" in
  let '(o2, _) := getDataService r1 n1 "posts" in
  exists s1 s2, o1 = Ok s1 /\ o2 = Ok s2 /\ svc_ref s1 <> svc_ref s2.
Proof.
  intros cs client r.
  assert (Hr : instance (run_calls fresh_global cs) = Some r) by reflexivity.
  split; [reflexivity|]. split; [reflexivity|]. split; [discriminate|]. split; [exact Hr|].
  exact (distinct_entities_distinct_services fresh_global cs "users" "posts" r
           eq_refl eq_refl ltac:(discriminate) Hr).
Defined.

Lemma create_then_delete_restores_witness :
  let l := [AJson (JObj [("id", JStr "1")])] in
  let s := {| ds_items := IArr l; ds_loading := false; ds_world := fresh_world |} in
  let net := always (json_response 201 item_body) in
  let resp := {| data := DJson (JObj [("id", JStr "7")]); res_status := 201;
                 res_headers := [("content-type", "application/json")]; ok := true |} in
  let s1 := snd (create demo_json_parse_item demo_json_stringify net demo_service
                   (JObj [("name", JStr "Ada")]) s) in
  Forall (fun x => get_id x <> None) l /\
  Forall (fun x => has_id x "7" = false) l /\
  fst (post demo_json_parse_item demo_json_stringify net (ds_client demo_service)
         (apiPath demo_service) (JObj [("name", JStr "Ada")]) no_options (ds_world s)) = Ok resp /\
  has_id (any_of_data (data resp)) "7" = true /\
  fst (delete demo_json_parse_item demo_json_stringify net (ds_client demo_service)
         (apiPath demo_service ++ "/" ++ "7") no_options (ds_world s1)) = Ok resp /\
  let '(o, s2) := ds_delete demo_json_parse_item demo_json_stringify net demo_service "7" s1 in
  o = Ok tt /\ ds_items s2 = IArr l.
Proof.
  intros l s net resp s1.
  assert (Hn : Forall (fun x => get_id x <> None) l) by (repeat constructor; discriminate).
  assert (Hnone : Forall (fun x => has_id x "7" = false) l) by (repeat constructor).
  assert (Hp : fst (post demo_json_parse_item demo_json_stringify net (ds_client demo_service)
                      (apiPath demo_service) (JObj [("name", JStr "Ada")]) no_options
                      (ds_world s)) = Ok resp) by (vm_compute; reflexivity).
  assert (Hx : has_id (any_of_data (data resp)) "7" = true) by reflexivity.
  assert (Hd : fst (delete demo_json_parse_item demo_json_stringify net (ds_client demo_service)
                      (apiPath demo_service ++ "/" ++ "7") no_options (ds_world s1)) = Ok resp)
    by (vm_compute; reflexivity).
  split; [exact Hn|]. split; [exact Hnone|]. split; [exact Hp|]. split; [exact Hx|].
  split; [exact Hd|].
  exact (create_then_delete_restores demo_json_parse_item demo_json_stringify net demo_service
           (JObj [("name", JStr "Ada")]) "7" s l resp resp eq_refl Hn Hnone Hp Hx Hd).
Defined.
